(** * MiddleTruncate: fitting a label into a width by eliding its middle

    A shallow embedding of
    [js_modules/dagit/packages/ui/src/components/MiddleTruncate.tsx]:
    the [useFixedSpan] hook (a binary search over the truncation depth,
    driven by canvas text measurement), the React state around it, and the
    [handleCopy] clipboard override of the [MiddleTruncate] component.

    How the source's data is read:
    - a JavaScript string is a sequence of UTF-16 code units, so that
      [text.length] and [text.slice] count what the source counts and the
      ellipsis U+2026 is one unit;
    - [start], [end], [mid] and [half] are JavaScript numbers holding
      integers far below 2^53: they are [Z], and [Math.floor (x / 2)] is
      [x / 2] in [Z];
    - pixel widths are finite doubles that the code only compares: they
      are rationals [Q], [!width] is [width == 0];
    - [ctx.measureText] is an oracle supplied by the environment, and so
      is what [canvas.getContext('2d')] returns.

    The build configuration [next.config.js] of the application that
    hosts the component follows: the configuration exported for a phase
    and its [webpack] hook. *)

From Equations Require Import Equations.
From Stdlib Require Import ZArith QArith List Bool String Ascii Lia.
Import ListNotations.

Local Open Scope Z_scope.

(** ** JavaScript strings *)

Definition code_unit := N.
Definition jsstring := list code_unit.

Module JS.

(** U+2026 HORIZONTAL ELLIPSIS, the character inside the template
    literals of lines 111 and 121. *)
Definition ellipsis : code_unit := 8230%N.

(** An ASCII literal as a JavaScript string. *)
Definition str (s : string) : jsstring :=
  List.map N_of_ascii (list_ascii_of_string s).

(** [s.length] *)
Definition length (s : jsstring) : Z := Z.of_nat (List.length s).

(** The relative index of [String.prototype.slice]: a negative index
    counts from the end, and everything is clamped to [0, len].  The
    argument has gone through ToIntegerOrInfinity, which sends [-0] to
    [+0]; in [Z] the two are the same number. *)
Definition relative_index (len i : Z) : Z :=
  if i <? 0 then Z.max (len + i) 0 else Z.min i len.

(** [s.slice(start, end)]; [end_ = None] is the one-argument call. *)
Definition slice (s : jsstring) (start : Z) (end_ : option Z) : jsstring :=
  let len := length s in
  let from := relative_index len start in
  let to := match end_ with
            | None => len
            | Some e => relative_index len e
            end in
  if to <=? from then []
  else firstn (Z.to_nat (to - from)) (skipn (Z.to_nat from) s).

(** [s === t] on strings. *)
Definition eqb (s t : jsstring) : bool :=
  if list_eq_dec N.eq_dec s t then true else false.

End JS.

(** [measuredWidth < targetWidth] on finite widths. *)
Definition Qltb (x y : Q) : bool := negb (Qle_bool y x).

(** ** The binary search of [useFixedSpan] (lines 101-121) *)

(** The template literal [`${text.slice(0, k)}…${text.slice(-k)}`]. *)
Definition candidate (text : jsstring) (k : Z) : jsstring :=
  JS.slice text 0 (Some k) ++ JS.ellipsis :: JS.slice text (- k) None.

(** [Math.floor(text.length / 2)] *)
Definition half_of (text : jsstring) : Z := JS.length text / 2.

(** The local variables of the effect at the moment the [while] loop is
    left, and the arguments [ctx.measureText] has been called with, oldest
    first. *)
Record Locals := mkLocals {
  start : Z;
  end_ : Z;
  truncatedText : jsstring;
  measuredWidth : option Q;
  measured : list jsstring
}.

Section Search.

Variable measureText : jsstring -> Q.
Variable text : jsstring.
Variable targetWidth : Q.

(** [while (start <= end) { ... }], lines 109-118.  The recursion is on
    the width [end + 1 - start] of the interval still to be searched. *)
Equations? while_loop (start end_ : Z) (truncatedText : jsstring)
    (measuredWidth : option Q) (measured : list jsstring) : Locals
    by wf (Z.to_nat (end_ + 1 - start)) lt :=
  while_loop start end_ truncatedText measuredWidth measured
    with Z_le_gt_dec start end_ => {
    | right _ := mkLocals start end_ truncatedText measuredWidth measured
    | left _ :=
        let mid := (start + end_) / 2 in
        let truncatedText' := candidate text mid in
        let measuredWidth' := measureText truncatedText' in
        if Qltb measuredWidth' targetWidth
        then while_loop (mid + 1) end_ truncatedText'
               (Some measuredWidth') (measured ++ [truncatedText'])
        else while_loop start (mid - 1) truncatedText'
               (Some measuredWidth') (measured ++ [truncatedText']) }.
Proof.
  all: match goal with
       | H : ?a <= ?b |- _ =>
           assert (a <= (a + b) / 2 <= b)
             by (split; [apply Z.div_le_lower_bound
                        | apply Z.div_le_upper_bound]; lia)
       end; lia.
Qed.

(** Lines 103-118: the initialisation and the loop. *)
Definition binary_search : Locals :=
  while_loop 1 (half_of text) text None [].

(** Line 121: the argument of [setTruncated]. *)
Definition fitted (l : Locals) : jsstring :=
  if half_of text <=? end_ l then text
  else JS.slice text 0 (Some (end_ l))
         ++ JS.ellipsis :: JS.slice text (- end_ l) None.

Definition truncate_to_fit : jsstring := fitted binary_search.

(** The candidate of depth [k] measures strictly below the target. *)
Definition fits (k : Z) : Prop := (measureText (candidate text k) < targetWidth)%Q.

End Search.

(** A bound on the measurements still to come when the interval
    [start .. end] is left to search. *)
Definition probes_left (start end_ : Z) : Z :=
  if start <=? end_ then Z.log2 (end_ - start + 1) + 1 else 0.

(** A measurement oracle is monotone in the truncation depth when a
    candidate that keeps more characters never measures narrower. *)
Definition monotone_oracle (measureText : jsstring -> Q) (text : jsstring) : Prop :=
  forall j k, 1 <= j -> j <= k -> k <= half_of text ->
    (measureText (candidate text j) <= measureText (candidate text k))%Q.

(** [e] is the largest depth of [1 .. half] whose candidate measures
    strictly below [w], or 0 when there is none. *)
Definition largest_fitting_depth (measureText : jsstring -> Q)
    (text : jsstring) (w : Q) (e : Z) : Prop :=
  (e = 0 /\ forall k, 1 <= k <= half_of text -> ~ fits measureText text w k)
  \/ (1 <= e <= half_of text /\ fits measureText text w e
      /\ forall k, e < k <= half_of text -> ~ fits measureText text w k).

(** The string has the shape [prefix + "…" + suffix], both parts cut
    from the two ends of [text] and both [k] units long. *)
Definition middle_truncation_of (text : jsstring) (k : Z) (s : jsstring) : Prop :=
  exists prefix rest suffix,
    s = prefix ++ JS.ellipsis :: suffix
    /\ text = prefix ++ rest ++ suffix
    /\ JS.length prefix = k /\ JS.length suffix = k.

(** ** The effect of [useFixedSpan] (lines 73-123) *)

Record TargetStyle := mkTargetStyle {
  width : Q;
  font : string
}.

(** A 2d context: what [measureText(s).width] is once [ctx.font] has been
    assigned. *)
Record CanvasRenderingContext2D := mkContext {
  ctx_measureText : string -> jsstring -> Q
}.

(** What one run of the effect does: the argument of [setTruncated], when
    it is called, and the strings it had measured. *)
Record EffectRun := mkEffectRun {
  setTruncated : option jsstring;
  measureCalls : list jsstring
}.

(** The three early [return]s of lines 74-95. *)
Definition skipped : EffectRun := mkEffectRun None [].

Definition useFixedSpan_effect (getContext : option CanvasRenderingContext2D)
    (text : jsstring) (targetStyle : option TargetStyle) : EffectRun :=
  match targetStyle with
  | None => skipped
  | Some ts =>
      match getContext with
      | None => skipped
      | Some ctx =>
          if Qeq_bool (width ts) 0 then skipped
          else
            let targetWidth := width ts in
            let l := binary_search (ctx_measureText ctx (font ts)) text targetWidth in
            mkEffectRun (Some (fitted text l)) (measured l)
      end
  end.

(** ** The component *)

(** [ref.current], when the [div] is there: its computed font and the
    width of its bounding rectangle. *)
Record Element := mkElement {
  computed_font : string;
  bounding_width : Q
}.

(** What the page answers during one render: the element behind [ref]
    and the result of [canvas.getContext('2d')]. *)
Record Env := mkEnv {
  ref_current : option Element;
  getContext : option CanvasRenderingContext2D
}.

(** The callback memoised by [useCallback(..., [text])]: the dependency it
    was made for and the [text] its closure holds. *)
Record CopyCallback := mkCopyCallback {
  deps : jsstring;
  closure_text : jsstring
}.

(** The state of one mounted [MiddleTruncate]: the [text] prop of the
    last render, the two [useState] cells, the memoised callback, and
    every string measured so far. *)
Record Component := mkComponent {
  text_prop : jsstring;
  targetStyle : option TargetStyle;
  truncated : jsstring;
  handleCopy_memo : CopyCallback;
  measure_log : list jsstring
}.

(** The effect of [useFixedSpan] after a render whose dependencies
    [targetStyle, text] have changed. *)
Definition run_effect (env : Env) (c : Component) : Component :=
  let r := useFixedSpan_effect (getContext env) (text_prop c) (targetStyle c) in
  mkComponent (text_prop c) (targetStyle c)
    (match setTruncated r with Some t => t | None => truncated c end)
    (handleCopy_memo c)
    (measure_log c ++ measureCalls r).

(** First render and the layout effect of lines 29-34.  The first render
    has [targetStyle = null], so its own effect returns at line 75; the
    render that follows [setTargetStyle] runs the effect again. *)
Definition mount (env : Env) (text : jsstring) : Component :=
  let first := mkComponent text None text (mkCopyCallback text text) [] in
  match ref_current env with
  | Some el =>
      run_effect env
        (mkComponent text (Some (mkTargetStyle (bounding_width el) (computed_font el)))
           text (mkCopyCallback text text) [])
  | None => first
  end.

Inductive Event :=
| Resize (contentRect_width : Q)
| SetText (text : jsstring).

(** The updater handed to [setTargetStyle] by the resize observer,
    lines 38-47. *)
Definition resized (env : Env) (current : option TargetStyle) (w : Q)
    : option TargetStyle :=
  match current with
  | Some cur => Some (mkTargetStyle w (font cur))
  | None =>
      match ref_current env with
      | Some el => Some (mkTargetStyle w (computed_font el))
      | None => None
      end
  end.

(** [useCallback(fn, [text])] at a render. *)
Definition useCallback_handleCopy (memo : CopyCallback) (text : jsstring)
    : CopyCallback :=
  if JS.eqb (deps memo) text then memo else mkCopyCallback text text.

(** One event, the render it causes and the effect after it.  A new
    [targetStyle] object always counts as a changed dependency; a [text]
    prop equal to the last one changes nothing; the updater returning
    [null] over [null] causes no render. *)
Definition step (env : Env) (c : Component) (ev : Event) : Component :=
  match ev with
  | Resize w =>
      match resized env (targetStyle c) w with
      | Some ts =>
          run_effect env
            (mkComponent (text_prop c) (Some ts) (truncated c)
               (handleCopy_memo c) (measure_log c))
      | None => c
      end
  | SetText t =>
      if JS.eqb (text_prop c) t then c
      else
        run_effect env
          (mkComponent t (targetStyle c) (truncated c)
             (useCallback_handleCopy (handleCopy_memo c) t) (measure_log c))
  end.

Fixpoint run (c : Component) (evs : list (Env * Event)) : Component :=
  match evs with
  | [] => c
  | (env, ev) :: rest => run (step env c ev) rest
  end.

(** The effect has something to measure with: a target style, a 2d
    context and a width that is not 0. *)
Definition can_measure (getContext : option CanvasRenderingContext2D)
    (targetStyle : option TargetStyle) : bool :=
  match targetStyle, getContext with
  | Some ts, Some _ => negb (Qeq_bool (width ts) 0)
  | _, _ => false
  end.

(** The same for the effect that follows event [ev]. *)
Definition measurable (env : Env) (c : Component) (ev : Event) : bool :=
  can_measure (getContext env) (targetStyle (step env c ev)).

(** No event of the run changes the text or finds something to measure
    with. *)
Fixpoint degraded (c : Component) (evs : list (Env * Event)) : bool :=
  match evs with
  | [] => true
  | (env, ev) :: rest =>
      negb (measurable env c ev)
      && JS.eqb (text_prop (step env c ev)) (text_prop c)
      && degraded (step env c ev) rest
  end.

(** The memoised callback holds the [text] of the last render. *)
Definition copy_current (c : Component) : Prop :=
  deps (handleCopy_memo c) = text_prop c
  /\ closure_text (handleCopy_memo c) = text_prop c.

(** ** Copying *)

Record ClipboardEvent := mkClipboardEvent {
  defaultPrevented : bool
}.

(** The system clipboard as the list of what has been written to it,
    oldest first; it holds the last one. *)
Definition Clipboard := list jsstring.


(** How a promise settles. *)
Inductive Settlement := Fulfilled | Rejected.

(** [navigator.clipboard], where there is one: how the promise returned
    by [writeText(text)] settles.  The text reaches the system clipboard
    only when the promise fulfils; without the permission, or in a
    document that has not the focus, it rejects. *)
Record ClipboardAPI := mkClipboardAPI {
  settles : jsstring -> Settlement
}.

(** [navigator]; its [clipboard] is [undefined] outside a secure
    context. *)
Record Navigator := mkNavigator {
  navigator_clipboard : option ClipboardAPI
}.

(** The promise of one [writeText] call; the handler does not await
    it. *)
Record PendingWrite := mkPendingWrite {
  pending_text : jsstring;
  settlement : Settlement
}.

(** How the handler is left: by the TypeError of reading [writeText] off
    [undefined], or normally, with its promise pending. *)
Inductive HandlerResult :=
| Threw_TypeError
| Returned (pending : PendingWrite).

(** [e.preventDefault()] *)
Definition preventDefault (e : ClipboardEvent) : ClipboardEvent :=
  mkClipboardEvent true.

(** [clipboardAPI.writeText(text)] *)
Definition writeText (clipboardAPI : ClipboardAPI) (text : jsstring)
    : PendingWrite :=
  mkPendingWrite text (settles clipboardAPI text).

(** [handleCopy], lines 20-25, for the [text] its closure holds. *)
Definition handleCopy (text : jsstring) (navigator : Navigator)
    (e : ClipboardEvent) : ClipboardEvent * HandlerResult :=
  let e := preventDefault e in
  let clipboardAPI := navigator_clipboard navigator in
  match clipboardAPI with
  | None => (e, Threw_TypeError)
  | Some api => (e, Returned (writeText api text))
  end.

(** A promise settling: a fulfilled write reaches the clipboard, a
    rejected one does nothing. *)
Definition settle (p : PendingWrite) (cb : Clipboard) : Clipboard :=
  match settlement p with
  | Fulfilled => cb ++ [pending_text p]
  | Rejected => cb
  end.

(** The user copies [selection] out of the rendered [div]: the [copy]
    event goes to [onCopy]; the browser writes the selection itself
    unless the handler has prevented that, also when the handler has
    thrown after preventing it; the promise of the handler settles once
    the event has been dispatched. *)
Definition copy (navigator : Navigator) (c : Component)
    (selection : jsstring) (cb : Clipboard) : Clipboard :=
  let '(e, result) := handleCopy (closure_text (handleCopy_memo c))
                        navigator (mkClipboardEvent false) in
  let cb := if defaultPrevented e then cb else cb ++ [selection] in
  match result with
  | Threw_TypeError => cb
  | Returned p => settle p cb
  end.

(** The write of [text] goes through: there is a clipboard API and its
    promise fulfils. *)
Definition write_goes_through (navigator : Navigator) (text : jsstring)
    : bool :=
  match navigator_clipboard navigator with
  | Some api =>
      match settles api text with
      | Fulfilled => true
      | Rejected => false
      end
  | None => false
  end.

(** ** Oracles and inputs of the examples *)

(** Ten pixels for every code unit. *)
Definition px10 (s : jsstring) : Q := inject_Z (10 * JS.length s).

(** An oracle that is not monotone: the shallowest candidate of ["abcd"]
    is the widest string there is. *)
Definition px_odd (s : jsstring) : Q :=
  if JS.eqb s (candidate (JS.str "abcd") 1) then 50%Q else 10%Q.

Definition ctx10 : CanvasRenderingContext2D := mkContext (fun _ => px10).

Definition page (w : Q) : Env :=
  mkEnv (Some (mkElement "14px sans-serif" w)) (Some ctx10).


Definition insecure_navigator : Navigator := mkNavigator None.


(** ** Bounds used in the further facts *)

(** A lower bound on the measurements still to come when the interval
    [start .. end] is left to search. *)
Definition probes_due (start end_ : Z) : Z := Z.log2 (end_ - start + 2).

(** ** The measuring canvas and the document (lines 78-99 and 122) *)





(** ** The build configuration ([next.config.js]) *)

#[warnings="-register-all"]
Inductive jsvalue :=
| Undefined
| Bool (b : bool)
| Str (s : string)
| RegExp (source : string)
| Arr (items : list jsvalue)
| Obj (props : list (string * jsvalue))
| Fn (name : string).

(** An object as its own properties, in insertion order. *)
Definition jsobject := list (string * jsvalue).

(** [o[k]]; a property that is not there reads as [undefined]. *)
Fixpoint get (o : jsobject) (k : string) : jsvalue :=
  match o with
  | [] => Undefined
  | (k', v) :: rest => if String.eqb k k' then v else get rest k
  end.

(** Defining property [k]: an existing one keeps its place and takes the
    new value, a new one goes last. *)
Fixpoint set (o : jsobject) (k : string) (v : jsvalue) : jsobject :=
  match o with
  | [] => [(k, v)]
  | (k', v') :: rest =>
      if String.eqb k k' then (k', v) :: rest else (k', v') :: set rest k v
  end.

(** The object literal [{...base, k1: v1, ...}]. *)
Definition spread (base : jsobject) (more : list (string * jsvalue)) : jsobject :=
  fold_left (fun o kv => set o (fst kv) (snd kv)) more base.

Definition keys (o : jsobject) : list string := List.map fst o.

(** [nextConfig], lines 6-47; [basePath] is what
    [process.env.NEXT_PUBLIC_BASE_PATH] holds when the file is loaded. *)
Definition nextConfig (NEXT_PUBLIC_BASE_PATH : jsvalue) : jsobject :=
  [ ("output", Str "export");
    ("productionBrowserSourceMaps", Bool true);
    ("basePath", NEXT_PUBLIC_BASE_PATH);
    ("transpilePackages",
      Arr [Str "@dagster-io/ui-components"; Str "@dagster-io/ui-core"]);
    ("webpack", Fn "webpack");
    ("compiler", Obj [("styledComponents", Bool true)]);
    ("distDir", Str "build");
    ("assetPrefix", Str "BUILDTIME_ASSETPREFIX_REPLACE_ME");
    ("experimental", Obj [("appDir", Bool false)]) ]%string.

(** [module.exports], lines 49-74.  [PHASE_DEVELOPMENT_SERVER] is the
    constant imported from [next/constants]. *)
Definition exports (PHASE_DEVELOPMENT_SERVER : string)
    (NEXT_PUBLIC_BASE_PATH : jsvalue) (phase : string) : jsobject :=
  if String.eqb phase PHASE_DEVELOPMENT_SERVER
  then spread (nextConfig NEXT_PUBLIC_BASE_PATH)
         [ ("output", Undefined);
           ("assetPrefix", Undefined);
           ("rewrites", Fn "rewrites") ]%string
  else nextConfig NEXT_PUBLIC_BASE_PATH.

(** The part of a webpack configuration the [webpack] hook touches.
    [assetPrefix] and [basePath] are a string or absent. *)
Record WebpackConfig := mkWebpackConfig {
  resolve : jsobject;
  externals : list jsvalue;
  module_rules : list jsvalue;
  assetPrefix : option string;
  basePath : option string
}.

(** [a ?? b] with both sides a string or absent, and with a string for
    [b]. *)
Definition nullish (a b : option string) : option string :=
  match a with
  | Some s => Some s
  | None => b
  end.

Definition nullish_or (a : option string) (b : string) : string :=
  match a with
  | Some s => s
  | None => b
  end.

(** [config.assetPrefix ?? config.basePath ?? ''], line 21. *)
Definition asset_prefix (assetPrefix basePath : option string) : string :=
  nullish_or (nullish assetPrefix basePath) "".

(** The rule pushed at lines 23-35. *)
Definition mp4_rule (prefix : string) (isServer : bool) : jsvalue :=
  Obj [ ("test", RegExp "\.mp4$");
        ("use",
          Arr [ Obj [ ("loader", Str "file-loader");
                      ("options",
                        Obj [ ("publicPath",
                                Str (prefix ++ "/_next/static/media/"));
                              ("outputPath",
                                Str ((if isServer then "../" else "")
                                       ++ "static/media/"));
                              ("name", Str "[name].[hash].[ext]") ]) ] ]) ]%string.

(** The [webpack] hook, lines 11-38. *)
Definition webpack (config : WebpackConfig) (isServer : bool) : WebpackConfig :=
  let resolve' :=
    set (resolve config) "fallback"
      (Obj [("fs", Bool false); ("module", Bool false)]%string) in
  let externals' :=
    externals config
      ++ [Obj [ ("utf-8-validate", Str "commonjs utf-8-validate");
                ("bufferutil", Str "commonjs bufferutil") ]%string] in
  let prefix := asset_prefix (assetPrefix config) (basePath config) in
  let rules' := module_rules config ++ [mp4_rule prefix isServer] in
  mkWebpackConfig resolve' externals' rules'
    (assetPrefix config) (basePath config).

(** The hook run once for each of a list of compilations. *)
Fixpoint webpack_each (config : WebpackConfig) (servers : list bool)
    : WebpackConfig :=
  match servers with
  | [] => config
  | isServer :: rest => webpack_each (webpack config isServer) rest
  end.

(** * Worked inputs *)

Example slice_front : JS.slice (JS.str "abcdef") 0 (Some 2) = JS.str "ab".
Proof. reflexivity. Qed.

Example slice_back : JS.slice (JS.str "abcdef") (- 2) None = JS.str "ef".
Proof. reflexivity. Qed.

Example slice_past_the_end :
  JS.slice (JS.str "ab") 0 (Some 5) = JS.str "ab"
  /\ JS.slice (JS.str "ab") (- 5) None = JS.str "ab".
Proof. split; reflexivity. Qed.

Example candidate_abcdef :
  candidate (JS.str "abcdef") 2 = JS.str "ab" ++ JS.ellipsis :: JS.str "ef".
Proof. reflexivity. Qed.

(** ["abcdef"] at ten pixels a unit and 55 pixels: depth 2 is tried
    first and fits, depth 3 does not. *)
Example search_abcdef :
  binary_search px10 (JS.str "abcdef") 55
  = mkLocals 3 2 (candidate (JS.str "abcdef") 3) (Some 70%Q)
      [candidate (JS.str "abcdef") 2; candidate (JS.str "abcdef") 3].
Proof. vm_compute. reflexivity. Qed.

Example fit_abcdef :
  truncate_to_fit px10 (JS.str "abcdef") 55
  = JS.str "ab" ++ JS.ellipsis :: JS.str "ef".
Proof. vm_compute. reflexivity. Qed.

Example mount_then_rename :
  truncated (run (mount (page 35) (JS.str "abcdef"))
               [(page 35, SetText (JS.str "abcdefgh"))])
  = JS.str "a" ++ JS.ellipsis :: JS.str "h".
Proof. vm_compute. reflexivity. Qed.

(** * Facts *)

(** ** Widths and slices *)

Lemma Qltb_true (x y : Q) : Qltb x y = true <-> (x < y)%Q.
Proof.
  unfold Qltb. rewrite negb_true_iff, <- not_true_iff_false, Qle_bool_iff.
  split; [apply Qnot_le_lt | apply Qlt_not_le].
Qed.

Lemma Qltb_false (x y : Q) : Qltb x y = false <-> (y <= x)%Q.
Proof.
  unfold Qltb. rewrite negb_false_iff. apply Qle_bool_iff.
Qed.

Lemma eqb_true (s t : jsstring) : JS.eqb s t = true <-> s = t.
Proof.
  unfold JS.eqb. destruct (list_eq_dec N.eq_dec s t); split; congruence.
Qed.

Lemma slice_prefix (s : jsstring) (k : Z) :
  0 <= k <= JS.length s ->
  JS.slice s 0 (Some k) = firstn (Z.to_nat k) s.
Proof.
  intros Hk. unfold JS.slice, JS.relative_index.
  replace (0 <? 0) with false by reflexivity.
  destruct (k <? 0) eqn:Hneg; [apply Z.ltb_lt in Hneg; lia |].
  rewrite Z.min_l, Z.min_l by lia.
  destruct (k <=? 0) eqn:Hz.
  - apply Z.leb_le in Hz. replace k with 0 by lia. reflexivity.
  - rewrite Z.sub_0_r. reflexivity.
Qed.

Lemma slice_suffix (s : jsstring) (k : Z) :
  1 <= k <= JS.length s ->
  JS.slice s (- k) None = skipn (Z.to_nat (JS.length s - k)) s.
Proof.
  intros Hk. unfold JS.slice, JS.relative_index.
  destruct (- k <? 0) eqn:Hneg; [| apply Z.ltb_ge in Hneg; lia].
  rewrite Z.max_l by lia.
  destruct (JS.length s <=? JS.length s + - k) eqn:Hz;
    [apply Z.leb_le in Hz; lia |].
  apply firstn_all2. rewrite length_skipn. unfold JS.length in *. lia.
Qed.

(** [text.slice(-0)] is [text.slice(0)]: the whole string. *)
Lemma slice_minus_zero (s : jsstring) : JS.slice s (- 0) None = s.
Proof.
  change (- 0) with 0. unfold JS.slice, JS.relative_index. cbv zeta.
  change (0 <? 0) with false.
  cbv iota. rewrite Z.min_l by (unfold JS.length; lia).
  destruct (JS.length s <=? 0) eqn:Hz.
  - apply Z.leb_le in Hz. destruct s; [reflexivity |].
    unfold JS.length in Hz. simpl in Hz. lia.
  - rewrite Z.sub_0_r. simpl. apply firstn_all2.
    unfold JS.length. lia.
Qed.

Lemma half_bounds (text : jsstring) :
  0 <= half_of text /\ 2 * half_of text <= JS.length text < 2 * half_of text + 2.
Proof.
  unfold half_of.
  assert (0 <= JS.length text) by (unfold JS.length; lia).
  pose proof (Z.div_mod (JS.length text) 2 ltac:(lia)).
  pose proof (Z.mod_pos_bound (JS.length text) 2 ltac:(lia)).
  lia.
Qed.

(** Within [1 .. half] the two slices do not overlap and have [k] units
    each. *)
Lemma candidate_shape (text : jsstring) (k : Z) :
  1 <= k <= half_of text ->
  candidate text k
  = firstn (Z.to_nat k) text
      ++ JS.ellipsis :: skipn (Z.to_nat (JS.length text - k)) text.
Proof.
  intros Hk. pose proof (half_bounds text). unfold candidate.
  rewrite slice_prefix, slice_suffix by lia. reflexivity.
Qed.

Lemma candidate_length (text : jsstring) (k : Z) :
  1 <= k <= half_of text -> JS.length (candidate text k) = 2 * k + 1.
Proof.
  intros Hk. pose proof (half_bounds text).
  rewrite candidate_shape by assumption. unfold JS.length in *.
  rewrite length_app, length_cons, length_firstn, length_skipn. lia.
Qed.

Lemma candidate_is_middle_truncation (text : jsstring) (k : Z) :
  1 <= k <= half_of text -> middle_truncation_of text k (candidate text k).
Proof.
  intros Hk. pose proof (half_bounds text) as Hh.
  exists (firstn (Z.to_nat k) text),
         (firstn (Z.to_nat (JS.length text - 2 * k)) (skipn (Z.to_nat k) text)),
         (skipn (Z.to_nat (JS.length text - k)) text).
  split; [apply candidate_shape; assumption |].
  unfold JS.length in *. repeat split.
  - rewrite <- (firstn_skipn (Z.to_nat k) text) at 1. f_equal.
    rewrite <- (firstn_skipn (Z.to_nat (Z.of_nat (List.length text) - 2 * k))
                  (skipn (Z.to_nat k) text)) at 1.
    f_equal. rewrite skipn_skipn. f_equal. lia.
  - rewrite length_firstn. lia.
  - rewrite length_skipn. lia.
Qed.

Lemma mid_bounds (a b : Z) : a <= b -> a <= (a + b) / 2 <= b.
Proof.
  intros Hab. split.
  - apply Z.div_le_lower_bound; lia.
  - apply Z.div_le_upper_bound; lia.
Qed.

(** ** The loop *)

Section Loop.

Variable measureText : jsstring -> Q.
Variable text : jsstring.
Variable targetWidth : Q.

Let loop := while_loop measureText text targetWidth.
Let fits_ := fits measureText text targetWidth.

(** The invariant rule of the [while] loop: a property of [start], [end]
    and the measured strings that holds on entry and is kept by both
    branches of the body holds when the loop is left, and the loop is
    left with its guard false. *)
Lemma while_loop_rule (I : Z -> Z -> list jsstring -> Prop) :
  (forall s e log, s <= e -> I s e log ->
     fits_ ((s + e) / 2) ->
     I ((s + e) / 2 + 1) e (log ++ [candidate text ((s + e) / 2)])) ->
  (forall s e log, s <= e -> I s e log ->
     ~ fits_ ((s + e) / 2) ->
     I s ((s + e) / 2 - 1) (log ++ [candidate text ((s + e) / 2)])) ->
  forall s e tt mw log, I s e log ->
    I (start (loop s e tt mw log)) (end_ (loop s e tt mw log))
      (measured (loop s e tt mw log))
    /\ end_ (loop s e tt mw log) < start (loop s e tt mw log).
Proof.
  intros Hfit Hwide s e tt mw log. subst loop.
  funelim (while_loop measureText text targetWidth s e tt mw log);
    intros HI.
  - destruct (Qltb (measureText (candidate text ((start0 + end_0) / 2)))
                targetWidth) eqn:Hcmp.
    + apply (H I Hfit Hwide). apply Hfit; [assumption | assumption |].
      apply Qltb_true. exact Hcmp.
    + apply (H0 I Hfit Hwide). apply Hwide; [assumption | assumption |].
      intros Hyes. apply Qltb_true in Hyes. unfold fits_, fits in *.
      congruence.
  - simpl. split; [assumption | lia].
Qed.

(** [end] stays within [0 .. half] and the loop is left with
    [start = end + 1]. *)
Lemma search_bounds :
  0 <= end_ (binary_search measureText text targetWidth) <= half_of text
  /\ start (binary_search measureText text targetWidth)
     = end_ (binary_search measureText text targetWidth) + 1.
Proof.
  pose proof (half_bounds text) as Hh.
  destruct (while_loop_rule
              (fun s e _ => 1 <= s <= e + 1 /\ e <= half_of text)) with
    (s := 1) (e := half_of text) (tt := text) (mw := @None Q)
    (log := @nil jsstring) as [HI Hexit].
  - intros s e log Hse HI _. pose proof (mid_bounds s e Hse). lia.
  - intros s e log Hse HI _. pose proof (mid_bounds s e Hse). lia.
  - lia.
  - subst loop. unfold binary_search. lia.
Qed.

(** Every measured string is a candidate of a depth in [1 .. half]. *)
Lemma search_measures_candidates (x : jsstring) :
  In x (measured (binary_search measureText text targetWidth)) ->
  exists mid, 1 <= mid <= half_of text /\ x = candidate text mid.
Proof.
  destruct (while_loop_rule
              (fun s e log => 1 <= s /\ e <= half_of text /\
                 forall y, In y log ->
                   exists mid, 1 <= mid <= half_of text /\ y = candidate text mid))
    with (s := 1) (e := half_of text) (tt := text) (mw := @None Q)
         (log := @nil jsstring) as [(_ & _ & HI) _].
  - intros s e log Hse (Hs & He & Hlog) _. pose proof (mid_bounds s e Hse).
    repeat split; try lia. intros y Hy. apply in_app_or in Hy.
    destruct Hy as [Hy | [Hy | []]]; [auto |].
    exists ((s + e) / 2). split; [lia | congruence].
  - intros s e log Hse (Hs & He & Hlog) _. pose proof (mid_bounds s e Hse).
    repeat split; try lia. intros y Hy. apply in_app_or in Hy.
    destruct Hy as [Hy | [Hy | []]]; [auto |].
    exists ((s + e) / 2). split; [lia | congruence].
  - repeat split; try lia. intros y [].
  - apply HI.
Qed.

(** When [end] is still [half] after the loop, the last string measured
    was the candidate of depth [half], and it measured below the
    target. *)
Lemma search_full_depth_was_measured :
  1 <= half_of text ->
  half_of text <= end_ (binary_search measureText text targetWidth) ->
  In (candidate text (half_of text))
     (measured (binary_search measureText text targetWidth))
  /\ fits_ (half_of text).
Proof.
  intros Hhalf Hend. pose proof search_bounds as [Hb Hst].
  destruct (while_loop_rule
              (fun s e log => e <= half_of text /\
                 (e = half_of text -> 1 < s ->
                  In (candidate text (s - 1)) log /\ fits_ (s - 1))))
    with (s := 1) (e := half_of text) (tt := text) (mw := @None Q)
         (log := @nil jsstring) as [(_ & HI) _].
  - intros s e log Hse (He & Hlast) Hfit. split; [assumption |].
    intros _ _. replace ((s + e) / 2 + 1 - 1) with ((s + e) / 2) by lia.
    split; [apply in_or_app; right; left; reflexivity | assumption].
  - intros s e log Hse (He & Hlast) _. pose proof (mid_bounds s e Hse).
    split; [lia |]. intros Habs. lia.
  - split; [lia |]. intros _ Habs. lia.
  - subst loop. fold (binary_search measureText text targetWidth) in HI.
    rewrite Hst in HI.
    replace (end_ (binary_search measureText text targetWidth) + 1 - 1)
      with (half_of text) in HI by lia.
    apply HI; lia.
Qed.

(** When every candidate fits, [end] is never lowered. *)
Lemma search_all_fit :
  (forall k, 1 <= k <= half_of text -> fits_ k) ->
  end_ (binary_search measureText text targetWidth) = half_of text.
Proof.
  intros Hall.
  destruct (while_loop_rule (fun s e _ => 1 <= s /\ e = half_of text))
    with (s := 1) (e := half_of text) (tt := text) (mw := @None Q)
         (log := @nil jsstring) as [(_ & HI) _].
  - intros s e log Hse (Hs & He) _. pose proof (mid_bounds s e Hse). lia.
  - intros s e log Hse (Hs & He) Hwide. pose proof (mid_bounds s e Hse).
    exfalso. apply Hwide, Hall. lia.
  - lia.
  - exact HI.
Qed.

(** With a monotone oracle the loop leaves in [end] the largest fitting
    depth. *)
Lemma search_threshold :
  monotone_oracle measureText text ->
  (forall k, 1 <= k <= end_ (binary_search measureText text targetWidth) ->
     fits_ k)
  /\ (forall k, end_ (binary_search measureText text targetWidth) < k
                <= half_of text -> ~ fits_ k).
Proof.
  intros Hmono. pose proof search_bounds as [Hb Hst].
  destruct (while_loop_rule
              (fun s e _ => 1 <= s /\ e <= half_of text /\
                 (forall k, 1 <= k < s -> fits_ k) /\
                 (forall k, e < k <= half_of text -> ~ fits_ k)))
    with (s := 1) (e := half_of text) (tt := text) (mw := @None Q)
         (log := @nil jsstring) as [(_ & _ & Hlow & Hhigh) _].
  - intros s e log Hse (Hs & He & Hlow & Hhigh) Hfit.
    pose proof (mid_bounds s e Hse).
    repeat split; try lia; [| assumption].
    intros k Hk. unfold fits_, fits in *.
    apply Qle_lt_trans with (2 := Hfit). apply Hmono; lia.
  - intros s e log Hse (Hs & He & Hlow & Hhigh) Hwide.
    pose proof (mid_bounds s e Hse).
    repeat split; try lia; [assumption |].
    intros k Hk Hfit. apply Hwide. unfold fits_, fits in *.
    apply Qle_lt_trans with (2 := Hfit). apply Hmono; lia.
  - repeat split; try lia; intros k Hk; lia.
  - subst loop. fold (binary_search measureText text targetWidth) in Hlow, Hhigh.
    split; [| exact Hhigh]. intros k Hk. apply Hlow. lia.
Qed.

End Loop.

(** ** Counting the measurements *)

Lemma mid_double (a b : Z) : a + b - 1 <= 2 * ((a + b) / 2) <= a + b.
Proof.
  pose proof (Z.div_mod (a + b) 2 ltac:(lia)).
  pose proof (Z.mod_pos_bound (a + b) 2 ltac:(lia)).
  lia.
Qed.

Lemma log2_half (m n : Z) : 1 <= m -> 2 * m <= n -> Z.log2 m + 1 <= Z.log2 n.
Proof.
  intros Hm Hn. pose proof (Z.log2_double m ltac:(lia)) as Hd.
  pose proof (Z.log2_le_mono (2 * m) n Hn). lia.
Qed.

Lemma probes_left_fit (s e : Z) :
  s <= e -> 1 + probes_left ((s + e) / 2 + 1) e <= probes_left s e.
Proof.
  intros Hse. pose proof (mid_double s e). pose proof (mid_bounds s e Hse).
  unfold probes_left.
  destruct (s <=? e) eqn:Hle; [| apply Z.leb_gt in Hle; lia].
  pose proof (Z.log2_nonneg (e - s + 1)).
  destruct ((s + e) / 2 + 1 <=? e) eqn:Hrec; [apply Z.leb_le in Hrec | lia].
  pose proof (log2_half (e - ((s + e) / 2 + 1) + 1) (e - s + 1)). lia.
Qed.

Lemma probes_left_wide (s e : Z) :
  s <= e -> 1 + probes_left s ((s + e) / 2 - 1) <= probes_left s e.
Proof.
  intros Hse. pose proof (mid_double s e). pose proof (mid_bounds s e Hse).
  unfold probes_left.
  destruct (s <=? e) eqn:Hle; [| apply Z.leb_gt in Hle; lia].
  pose proof (Z.log2_nonneg (e - s + 1)).
  destruct (s <=? (s + e) / 2 - 1) eqn:Hrec; [apply Z.leb_le in Hrec | lia].
  pose proof (log2_half ((s + e) / 2 - 1 - s + 1) (e - s + 1)). lia.
Qed.

Lemma search_probe_count (measureText : jsstring -> Q) (text : jsstring)
    (targetWidth : Q) :
  Z.of_nat (List.length (measured (binary_search measureText text targetWidth)))
  <= probes_left 1 (half_of text).
Proof.
  destruct (while_loop_rule measureText text targetWidth
              (fun s e log => Z.of_nat (List.length log) + probes_left s e
                              <= probes_left 1 (half_of text)))
    with (s := 1) (e := half_of text) (tt := text) (mw := @None Q)
         (log := @nil jsstring) as [HI Hexit].
  - intros s e log Hse HI _. pose proof (probes_left_fit s e Hse).
    rewrite length_app. simpl List.length. lia.
  - intros s e log Hse HI _. pose proof (probes_left_wide s e Hse).
    rewrite length_app. simpl List.length. lia.
  - simpl List.length. lia.
  - fold (binary_search measureText text targetWidth) in HI, Hexit.
    unfold probes_left in HI at 1.
    destruct (start (binary_search measureText text targetWidth)
              <=? end_ (binary_search measureText text targetWidth)) eqn:Hs;
      [apply Z.leb_le in Hs |]; lia.
Qed.

(** ** The ten-pixel oracle *)

Lemma px10_candidate (text : jsstring) (k : Z) :
  1 <= k <= half_of text -> px10 (candidate text k) = inject_Z (10 * (2 * k + 1)).
Proof.
  intros Hk. unfold px10. rewrite candidate_length by assumption. reflexivity.
Qed.

Lemma px10_monotone (text : jsstring) : monotone_oracle px10 text.
Proof.
  intros j k Hj Hjk Hk. rewrite !px10_candidate by lia.
  rewrite <- Zle_Qle. lia.
Qed.

(** ** The component *)

Lemma run_effect_skipped (env : Env) (c : Component) :
  can_measure (getContext env) (targetStyle c) = false ->
  run_effect env c = c.
Proof.
  intros Hno. unfold run_effect, useFixedSpan_effect.
  unfold can_measure in Hno.
  destruct c as [t ts tr memo log]; simpl in *.
  destruct ts as [ts |]; [| simpl; now rewrite app_nil_r].
  destruct (getContext env); [| simpl; now rewrite app_nil_r].
  apply negb_false_iff in Hno. rewrite Hno. simpl. now rewrite app_nil_r.
Qed.

Lemma run_effect_keeps (env : Env) (c : Component) :
  text_prop (run_effect env c) = text_prop c
  /\ targetStyle (run_effect env c) = targetStyle c
  /\ handleCopy_memo (run_effect env c) = handleCopy_memo c.
Proof. repeat split. Qed.

Lemma mount_copy_current (env : Env) (text : jsstring) :
  copy_current (mount env text).
Proof.
  unfold mount, copy_current. destruct (ref_current env); split; reflexivity.
Qed.

Lemma step_copy_current (env : Env) (c : Component) (ev : Event) :
  copy_current c -> copy_current (step env c ev).
Proof.
  intros [Hd Hc]. destruct ev as [w | t]; simpl.
  - destruct (resized env (targetStyle c) w); split; assumption.
  - destruct (JS.eqb (text_prop c) t) eqn:Hsame; [split; assumption |].
    unfold copy_current, useCallback_handleCopy; simpl.
    destruct (JS.eqb (deps (handleCopy_memo c)) t) eqn:Hdeps.
    + apply eqb_true in Hdeps. split; congruence.
    + split; reflexivity.
Qed.

Lemma run_copy_current (evs : list (Env * Event)) (c : Component) :
  copy_current c -> copy_current (run c evs).
Proof.
  revert c. induction evs as [| [env ev] rest IH]; intros c Hc; simpl.
  - exact Hc.
  - apply IH, step_copy_current, Hc.
Qed.

Lemma step_unmeasurable (env : Env) (c : Component) (ev : Event) :
  measurable env c ev = false ->
  truncated (step env c ev) = truncated c
  /\ measure_log (step env c ev) = measure_log c.
Proof.
  unfold measurable. destruct ev as [w | t]; simpl.
  - destruct (resized env (targetStyle c) w) as [ts |]; [| split; reflexivity].
    intros Hno. rewrite run_effect_skipped; [split; reflexivity | exact Hno].
  - destruct (JS.eqb (text_prop c) t); [split; reflexivity |].
    intros Hno. rewrite run_effect_skipped; [split; reflexivity | exact Hno].
Qed.

(** * The properties of the specification *)

Ltac depth_cases k :=
  match goal with
  | H : _ <= k <= ?h |- _ =>
      let v := eval vm_compute in h in
      change h with v in H;
      let Hk := fresh in
      assert (Hk : k = 1 \/ k = 2) by lia;
      destruct Hk; subst k
  end.

(** C1, as stated: a text whose own measured width is at most the target
    is returned unchanged.  The code never measures the text itself:
    ["abcd"] at ten pixels a unit measures 40, the target is 45, the
    candidate ["ab…cd"] measures 50, and the hook shows ["a…d"]. *)
Lemma C1_counterexample :
  (px10 (JS.str "abcd") <= 45)%Q
  /\ truncate_to_fit px10 (JS.str "abcd") 45
     = JS.str "a" ++ JS.ellipsis :: JS.str "d"
  /\ truncate_to_fit px10 (JS.str "abcd") 45 <> JS.str "abcd".
Proof.
  split; [| split].
  - vm_compute. discriminate.
  - vm_compute. reflexivity.
  - vm_compute. discriminate.
Qed.

(** C1, amended: when the candidate of every depth of [1 .. half] measures
    strictly below the target, the text is returned unchanged, with no
    ellipsis put in. *)
Theorem C1_unchanged_when_candidates_fit (measureText : jsstring -> Q)
    (text : jsstring) (targetWidth : Q) :
  (forall k, 1 <= k <= half_of text -> fits measureText text targetWidth k) ->
  truncate_to_fit measureText text targetWidth = text.
Proof.
  intros Hall. unfold truncate_to_fit, fitted.
  rewrite (search_all_fit measureText text targetWidth Hall).
  rewrite Z.leb_refl. reflexivity.
Qed.

Lemma C1_unchanged_witness :
  truncate_to_fit px10 (JS.str "abcd") 60 = JS.str "abcd".
Proof.
  apply (C1_unchanged_when_candidates_fit px10 (JS.str "abcd") 60).
  intros k Hk. depth_cases k; vm_compute; reflexivity.
Defined.

(** C2: for a text with [half >= 1] and an oracle monotone in the depth,
    the loop leaves in [end] the largest depth of [1 .. half] whose
    candidate measures strictly below the target, or 0 when there is
    none; and when [1 <= end < half] the string returned is the candidate
    of depth [end], it measures strictly below the target, and the
    candidate one unit deeper does not. *)
Theorem C2_end_is_largest_fitting_depth (measureText : jsstring -> Q)
    (text : jsstring) (targetWidth : Q) :
  1 <= half_of text ->
  monotone_oracle measureText text ->
  largest_fitting_depth measureText text targetWidth
    (end_ (binary_search measureText text targetWidth))
  /\ (1 <= end_ (binary_search measureText text targetWidth) < half_of text ->
      truncate_to_fit measureText text targetWidth
      = candidate text (end_ (binary_search measureText text targetWidth))
      /\ (measureText (truncate_to_fit measureText text targetWidth)
          < targetWidth)%Q
      /\ (targetWidth
          <= measureText
               (candidate text
                  (end_ (binary_search measureText text targetWidth) + 1)))%Q).
Proof.
  intros Hhalf Hmono.
  pose proof (search_bounds measureText text targetWidth) as [Hb _].
  pose proof (search_threshold measureText text targetWidth Hmono)
    as [Hlow Hhigh].
  set (e := end_ (binary_search measureText text targetWidth)) in *.
  split.
  - unfold largest_fitting_depth. destruct (Z.eq_dec e 0) as [He | He].
    + left. split; [exact He |]. intros k Hk. apply Hhigh. lia.
    + right. split; [lia |]. split; [apply Hlow; lia | exact Hhigh].
  - intros He.
    assert (Hres : truncate_to_fit measureText text targetWidth
                   = candidate text e).
    { unfold truncate_to_fit, fitted. fold e.
      destruct (half_of text <=? e) eqn:Hfull;
        [apply Z.leb_le in Hfull; lia | reflexivity]. }
    split; [exact Hres |]. split.
    + rewrite Hres. apply (Hlow e). lia.
    + apply Qnot_lt_le. apply (Hhigh (e + 1)). lia.
Qed.

Lemma C2_end_is_largest_witness :
  largest_fitting_depth px10 (JS.str "abcd") 40
    (end_ (binary_search px10 (JS.str "abcd") 40))
  /\ (1 <= end_ (binary_search px10 (JS.str "abcd") 40)
        < half_of (JS.str "abcd") ->
      truncate_to_fit px10 (JS.str "abcd") 40
      = candidate (JS.str "abcd") (end_ (binary_search px10 (JS.str "abcd") 40))
      /\ (px10 (truncate_to_fit px10 (JS.str "abcd") 40) < 40)%Q
      /\ (40 <= px10 (candidate (JS.str "abcd")
                        (end_ (binary_search px10 (JS.str "abcd") 40) + 1)))%Q).
Proof.
  apply (C2_end_is_largest_fitting_depth px10 (JS.str "abcd") 40).
  - vm_compute. discriminate.
  - apply px10_monotone.
Defined.

(** C3, as stated: whenever the text is not returned unchanged, the
    result is [prefix + "…" + suffix] with both parts of one length
    [k >= 1].  For ["ab"] and a target below every candidate the loop
    ends with [end = 0] and the result begins with the ellipsis. *)
Lemma C3_counterexample :
  truncate_to_fit px10 (JS.str "ab") 5 <> JS.str "ab"
  /\ ~ (exists k, 1 <= k
          /\ middle_truncation_of (JS.str "ab") k
               (truncate_to_fit px10 (JS.str "ab") 5)).
Proof.
  split.
  - vm_compute. discriminate.
  - intros (k & Hk & prefix & rest & suffix & Hs & Ht & Hp & _).
    destruct prefix as [| c prefix].
    + unfold JS.length in Hp. simpl in Hp. lia.
    + vm_compute in Hs. vm_compute in Ht.
      injection Hs as Hc _. injection Ht as Hc' _. congruence.
Qed.

(** C3, amended: whenever the text is not returned unchanged and the
    depth [end] the loop computed is at least 1, the result is
    [prefix + "…" + suffix], the two parts being the first and the last
    [end] units of the text, and [end < half]. *)
Theorem C3_truncated_shape (measureText : jsstring -> Q) (text : jsstring)
    (targetWidth : Q) :
  truncate_to_fit measureText text targetWidth <> text ->
  1 <= end_ (binary_search measureText text targetWidth) ->
  middle_truncation_of text
    (end_ (binary_search measureText text targetWidth))
    (truncate_to_fit measureText text targetWidth)
  /\ end_ (binary_search measureText text targetWidth) < half_of text.
Proof.
  intros Hchanged Hone.
  pose proof (search_bounds measureText text targetWidth) as [Hb _].
  unfold truncate_to_fit, fitted in *.
  set (e := end_ (binary_search measureText text targetWidth)) in *.
  destruct (half_of text <=? e) eqn:Hfull; [congruence |].
  apply Z.leb_gt in Hfull. split; [| exact Hfull].
  apply (candidate_is_middle_truncation text e). lia.
Qed.

Lemma C3_truncated_shape_witness :
  middle_truncation_of (JS.str "abcd")
    (end_ (binary_search px10 (JS.str "abcd") 40))
    (truncate_to_fit px10 (JS.str "abcd") 40)
  /\ end_ (binary_search px10 (JS.str "abcd") 40) < half_of (JS.str "abcd").
Proof.
  apply (C3_truncated_shape px10 (JS.str "abcd") 40).
  - vm_compute. discriminate.
  - vm_compute. discriminate.
Defined.

(** C4, on the code: when [half >= 1] and the loop ends with [end = 0],
    line 121 builds [text.slice(0, 0) + "…" + text.slice(-0)], and
    [slice(-0)] is the whole text: the hook shows the ellipsis followed
    by all of the text, not the ellipsis alone. *)
Theorem C4_depth_zero_keeps_whole_text (measureText : jsstring -> Q)
    (text : jsstring) (targetWidth : Q) :
  1 <= half_of text ->
  end_ (binary_search measureText text targetWidth) = 0 ->
  truncate_to_fit measureText text targetWidth = JS.ellipsis :: text
  /\ truncate_to_fit measureText text targetWidth <> [JS.ellipsis].
Proof.
  intros Hhalf Hend.
  assert (Hres : truncate_to_fit measureText text targetWidth
                 = JS.ellipsis :: text).
  { unfold truncate_to_fit, fitted. rewrite Hend.
    destruct (half_of text <=? 0) eqn:Hfull; [apply Z.leb_le in Hfull; lia |].
    rewrite slice_minus_zero, slice_prefix
      by (unfold JS.length; lia).
    reflexivity. }
  split; [exact Hres |]. rewrite Hres. intros Heq.
  injection Heq as Hnil. subst text.
  change (half_of []) with 0 in Hhalf. lia.
Qed.

Lemma C4_depth_zero_witness :
  truncate_to_fit px10 (JS.str "ab") 5 = JS.ellipsis :: JS.str "ab"
  /\ truncate_to_fit px10 (JS.str "ab") 5 <> [JS.ellipsis].
Proof.
  apply (C4_depth_zero_keeps_whole_text px10 (JS.str "ab") 5).
  - vm_compute. discriminate.
  - vm_compute. reflexivity.
Defined.

Lemma copy_characterised (navigator : Navigator) (env : Env)
    (text : jsstring) (evs : list (Env * Event)) (selection : jsstring)
    (cb : Clipboard) :
  copy navigator (run (mount env text) evs) selection cb
  = if write_goes_through navigator (text_prop (run (mount env text) evs))
    then cb ++ [text_prop (run (mount env text) evs)]
    else cb.
Proof.
  pose proof (run_copy_current evs (mount env text)
                (mount_copy_current env text)) as [_ Hclosure].
  unfold copy, handleCopy, write_goes_through. rewrite Hclosure.
  destruct (navigator_clipboard navigator) as [api |]; simpl; [| reflexivity].
  unfold settle, writeText. simpl.
  destruct (settles api (text_prop (run (mount env text) evs))); reflexivity.
Qed.




(** C6, as stated: with a target width of 0 the display is the full
    text.  A component that has fitted ["abcdef"] into 35 pixels shows
    ["a…f"]; when it is then resized to width 0 the effect returns at
    line 94 without touching the state, and ["a…f"] stays on display. *)
Lemma C6_counterexample :
  targetStyle (run (mount (page 35) (JS.str "abcdef")) [(page 0, Resize 0)])
  = Some (mkTargetStyle 0 "14px sans-serif")
  /\ useFixedSpan_effect (getContext (page 0)) (JS.str "abcdef")
       (Some (mkTargetStyle 0 "14px sans-serif")) = skipped
  /\ truncated (run (mount (page 35) (JS.str "abcdef")) [(page 0, Resize 0)])
     = JS.str "a" ++ JS.ellipsis :: JS.str "f"
  /\ truncated (run (mount (page 35) (JS.str "abcdef")) [(page 0, Resize 0)])
     <> JS.str "abcdef".
Proof.
  split; [| split; [| split]].
  - vm_compute. reflexivity.
  - vm_compute. reflexivity.
  - vm_compute. reflexivity.
  - vm_compute. discriminate.
Qed.

(** C6, amended: when the target style is missing, no 2d context can be
    had or the width is 0, the effect measures nothing and leaves the
    displayed string as it was; so a component mounted with text [T]
    displays the full [T], and has measured nothing, for as long as its
    text stays [T] and no effect has found something to measure with. *)
Theorem C6_skipped_effect_keeps_display (env : Env) (text : jsstring)
    (evs : list (Env * Event)) :
  can_measure (getContext env) (targetStyle (mount env text)) = false ->
  degraded (mount env text) evs = true ->
  (forall (e : Env) (c : Component),
     can_measure (getContext e) (targetStyle c) = false ->
     useFixedSpan_effect (getContext e) (text_prop c) (targetStyle c) = skipped
     /\ run_effect e c = c)
  /\ truncated (run (mount env text) evs) = text
  /\ text_prop (run (mount env text) evs) = text
  /\ measure_log (run (mount env text) evs) = [].
Proof.
  intros Hmount Hrun. split.
  - intros e c Hno. split; [| apply run_effect_skipped; exact Hno].
    unfold can_measure in Hno. unfold useFixedSpan_effect.
    destruct (targetStyle c) as [ts |]; [| reflexivity].
    destruct (getContext e); [| reflexivity].
    apply negb_false_iff in Hno. rewrite Hno. reflexivity.
  - assert (Hstart : truncated (mount env text) = text
                     /\ text_prop (mount env text) = text
                     /\ measure_log (mount env text) = []).
    { unfold mount in *. destruct (ref_current env) as [el |].
      - rewrite run_effect_skipped by exact Hmount. repeat split.
      - repeat split. }
    clear Hmount. revert Hstart Hrun. generalize (mount env text).
    induction evs as [| [e ev] rest IH]; intros c Hc Hrun; simpl in *.
    + exact Hc.
    + apply andb_prop in Hrun as [Hrun Hrest].
      apply andb_prop in Hrun as [Hno Hsame].
      apply negb_true_iff in Hno. apply eqb_true in Hsame.
      destruct (step_unmeasurable e c ev Hno) as [Htr Hlog].
      apply IH; [| exact Hrest].
      destruct Hc as (Hc1 & Hc2 & Hc3). repeat split; congruence.
Qed.

Lemma C6_skipped_effect_witness :
  (forall (e : Env) (c : Component),
     can_measure (getContext e) (targetStyle c) = false ->
     useFixedSpan_effect (getContext e) (text_prop c) (targetStyle c) = skipped
     /\ run_effect e c = c)
  /\ truncated (run (mount (page 0) (JS.str "abcdef"))
                  [(mkEnv None None, Resize 35); (page 0, Resize 0)])
     = JS.str "abcdef"
  /\ text_prop (run (mount (page 0) (JS.str "abcdef"))
                  [(mkEnv None None, Resize 35); (page 0, Resize 0)])
     = JS.str "abcdef"
  /\ measure_log (run (mount (page 0) (JS.str "abcdef"))
                    [(mkEnv None None, Resize 35); (page 0, Resize 0)])
     = [].
Proof.
  apply (C6_skipped_effect_keeps_display (page 0) (JS.str "abcdef")
           [(mkEnv None None, Resize 35); (page 0, Resize 0)]).
  - vm_compute. reflexivity.
  - vm_compute. reflexivity.
Defined.

(** C7: for one text and a monotone oracle, the depth [end] the loop
    chooses does not decrease when the target width grows. *)
Theorem C7_depth_monotone_in_width (measureText : jsstring -> Q)
    (text : jsstring) (w1 w2 : Q) :
  monotone_oracle measureText text ->
  (w1 <= w2)%Q ->
  end_ (binary_search measureText text w1)
  <= end_ (binary_search measureText text w2).
Proof.
  intros Hmono Hw.
  pose proof (search_bounds measureText text w1) as [Hb1 _].
  pose proof (search_bounds measureText text w2) as [Hb2 _].
  pose proof (search_threshold measureText text w1 Hmono) as [Hlow1 _].
  pose proof (search_threshold measureText text w2 Hmono) as [_ Hhigh2].
  destruct (Z_le_gt_dec (end_ (binary_search measureText text w1))
              (end_ (binary_search measureText text w2))) as [Hle | Hgt];
    [exact Hle | exfalso].
  apply (Hhigh2 (end_ (binary_search measureText text w1))); [lia |].
  unfold fits. apply Qlt_le_trans with (2 := Hw).
  apply (Hlow1 (end_ (binary_search measureText text w1))). lia.
Qed.

Lemma C7_depth_monotone_witness :
  end_ (binary_search px10 (JS.str "abcdef") 40)
  <= end_ (binary_search px10 (JS.str "abcdef") 60).
Proof.
  apply (C7_depth_monotone_in_width px10 (JS.str "abcdef") 40 60).
  - apply px10_monotone.
  - vm_compute. discriminate.
Defined.

(** C8: for every text and every oracle, monotone or not, the loop is
    left, with its guard [start <= end] false, after at most
    [floor (log2 (max half 1)) + 1] calls of [measureText]. *)
Theorem C8_loop_terminates_within_log_calls (measureText : jsstring -> Q)
    (text : jsstring) (targetWidth : Q) :
  end_ (binary_search measureText text targetWidth)
  < start (binary_search measureText text targetWidth)
  /\ Z.of_nat (List.length (measured (binary_search measureText text targetWidth)))
     <= Z.log2 (Z.max (half_of text) 1) + 1.
Proof.
  pose proof (search_bounds measureText text targetWidth) as [_ Hst].
  pose proof (search_probe_count measureText text targetWidth) as Hcount.
  pose proof (half_bounds text) as [Hh _].
  split; [lia |]. unfold probes_left in Hcount.
  destruct (1 <=? half_of text) eqn:Hone.
  - apply Z.leb_le in Hone. rewrite Z.max_l by lia.
    replace (half_of text - 1 + 1) with (half_of text) in Hcount by lia.
    exact Hcount.
  - pose proof (Z.log2_nonneg (Z.max (half_of text) 1)). lia.
Qed.

(** C9: when the text is empty, and whenever [half = 0], the text has at
    most one unit, nothing is measured and the text is returned
    unchanged, whatever the target width. *)
Theorem C9_short_text_unchanged (measureText : jsstring -> Q)
    (text : jsstring) (targetWidth : Q) :
  text = [] \/ half_of text = 0 ->
  JS.length text <= 1
  /\ truncate_to_fit measureText text targetWidth = text
  /\ measured (binary_search measureText text targetWidth) = [].
Proof.
  intros Hshort.
  assert (Hhalf : half_of text = 0)
    by (destruct Hshort as [-> | Hh]; [reflexivity | exact Hh]).
  pose proof (half_bounds text) as Hb. split; [lia |].
  unfold truncate_to_fit, fitted, binary_search. rewrite Hhalf.
  simp while_loop. simpl. split; reflexivity.
Qed.

Lemma C9_short_text_witness :
  JS.length [] <= 1
  /\ truncate_to_fit px10 [] 100 = []
  /\ measured (binary_search px10 [] 100) = [].
Proof.
  apply (C9_short_text_unchanged px10 [] 100). left. reflexivity.
Defined.

(** C10, as stated: the oracle is never called on the text itself, and
    whether the full text is shown depends on the candidate of depth
    [half] alone.  The one candidate of ["a…b"] is ["a…b"]; and with an
    oracle that is not monotone the candidate of depth [half] of
    ["abcd"] fits while the loop, turned away by the candidate of depth 1,
    ends below [half] without having measured it. *)
Lemma C10_counterexample :
  In (JS.str "a" ++ JS.ellipsis :: JS.str "b")
     (measured (binary_search px10 (JS.str "a" ++ JS.ellipsis :: JS.str "b") 100))
  /\ fits px_odd (JS.str "abcd") 20 (half_of (JS.str "abcd"))
  /\ end_ (binary_search px_odd (JS.str "abcd") 20) < half_of (JS.str "abcd")
  /\ ~ In (candidate (JS.str "abcd") (half_of (JS.str "abcd")))
          (measured (binary_search px_odd (JS.str "abcd") 20)).
Proof.
  split; [| split; [| split]].
  - vm_compute. left. reflexivity.
  - vm_compute. reflexivity.
  - vm_compute. reflexivity.
  - vm_compute. intros [H | []]. discriminate H.
Qed.

(** C10, amended: the oracle is only ever called on candidates of a depth
    in [1 .. half]; such a candidate is the text itself only when the
    text has odd length and the ellipsis as its middle unit.  When
    [half >= 1] and the loop leaves [end >= half], the candidate of depth
    [half] has been measured and was strictly below the target; with a
    monotone oracle that candidate fitting is also enough for
    [end >= half]. *)
Theorem C10_only_candidates_are_measured (measureText : jsstring -> Q)
    (text : jsstring) (targetWidth : Q) :
  (forall x, In x (measured (binary_search measureText text targetWidth)) ->
     exists mid, 1 <= mid <= half_of text /\ x = candidate text mid)
  /\ (In text (measured (binary_search measureText text targetWidth)) ->
      JS.length text = 2 * half_of text + 1
      /\ nth_error text (Z.to_nat (half_of text)) = Some JS.ellipsis)
  /\ (1 <= half_of text ->
      half_of text <= end_ (binary_search measureText text targetWidth) ->
      In (candidate text (half_of text))
         (measured (binary_search measureText text targetWidth))
      /\ fits measureText text targetWidth (half_of text))
  /\ (monotone_oracle measureText text ->
      fits measureText text targetWidth (half_of text) ->
      half_of text <= end_ (binary_search measureText text targetWidth)).
Proof.
  split; [| split; [| split]].
  - apply search_measures_candidates.
  - intros Hin.
    apply search_measures_candidates in Hin as (mid & Hmid & Heq).
    pose proof (half_bounds text) as Hb.
    pose proof (candidate_length text mid Hmid) as Hlen.
    rewrite <- Heq in Hlen.
    assert (mid = half_of text) by lia. subst mid. split; [exact Hlen |].
    rewrite candidate_shape in Heq by exact Hmid.
    assert (Hpre : List.length (firstn (Z.to_nat (half_of text)) text)
                   = Z.to_nat (half_of text))
      by (rewrite length_firstn; unfold JS.length in *; lia).
    remember (firstn (Z.to_nat (half_of text)) text) as prefix.
    remember (skipn (Z.to_nat (JS.length text - half_of text)) text) as suffix.
    rewrite Heq at 1. rewrite nth_error_app2 by lia.
    rewrite Hpre, Nat.sub_diag. reflexivity.
  - apply search_full_depth_was_measured.
  - intros Hmono Hfit.
    pose proof (search_threshold measureText text targetWidth Hmono)
      as [_ Hhigh].
    destruct (Z_le_gt_dec (half_of text)
                (end_ (binary_search measureText text targetWidth)))
      as [Hle | Hgt]; [exact Hle | exfalso].
    apply (Hhigh (half_of text)); [lia | exact Hfit].
Qed.

Lemma C10_only_candidates_witness :
  (In (candidate (JS.str "abcd") (half_of (JS.str "abcd")))
      (measured (binary_search px10 (JS.str "abcd") 60))
   /\ fits px10 (JS.str "abcd") 60 (half_of (JS.str "abcd")))
  /\ half_of (JS.str "abcd") <= end_ (binary_search px10 (JS.str "abcd") 60).
Proof.
  pose proof (C10_only_candidates_are_measured px10 (JS.str "abcd") 60)
    as (_ & _ & Hfull & Hmono).
  split.
  - apply Hfull; vm_compute; discriminate.
  - apply Hmono; [apply px10_monotone | vm_compute; reflexivity].
Defined.

(** * Further facts about the search *)

Lemma while_loop_body (measureText : jsstring -> Q) (text : jsstring)
    (targetWidth : Q) (s e : Z) (tt : jsstring) (mw : option Q)
    (log : list jsstring) :
  while_loop measureText text targetWidth s e tt mw log
  = if s <=? e
    then if Qltb (measureText (candidate text ((s + e) / 2))) targetWidth
         then while_loop measureText text targetWidth ((s + e) / 2 + 1) e
                (candidate text ((s + e) / 2))
                (Some (measureText (candidate text ((s + e) / 2))))
                (log ++ [candidate text ((s + e) / 2)])
         else while_loop measureText text targetWidth s ((s + e) / 2 - 1)
                (candidate text ((s + e) / 2))
                (Some (measureText (candidate text ((s + e) / 2))))
                (log ++ [candidate text ((s + e) / 2)])
    else mkLocals s e tt mw log.
Proof.
  funelim (while_loop measureText text targetWidth s e tt mw log).
  - destruct (start0 <=? end_0) eqn:Hle; [reflexivity |].
    apply Z.leb_gt in Hle. lia.
  - destruct (start0 <=? end_0) eqn:Hle; [| reflexivity].
    apply Z.leb_le in Hle. lia.
Qed.

(** [end] stays between [start - 1] and its first value, from any
    interval. *)
Lemma while_loop_end_range (measureText : jsstring -> Q) (text : jsstring)
    (targetWidth : Q) (s e : Z) (tt : jsstring) (mw : option Q)
    (log : list jsstring) :
  s <= e + 1 ->
  s - 1 <= end_ (while_loop measureText text targetWidth s e tt mw log) <= e.
Proof.
  intros Hse.
  destruct (while_loop_rule measureText text targetWidth
              (fun s' e' _ => s <= s' <= e' + 1 /\ e' <= e))
    with (s := s) (e := e) (tt := tt) (mw := mw) (log := log) as [HI Hexit].
  - intros s' e' l' Hle HI _. pose proof (mid_bounds s' e' Hle). lia.
  - intros s' e' l' Hle HI _. pose proof (mid_bounds s' e' Hle). lia.
  - lia.
  - lia.
Qed.

(** The depth chosen does not decrease with the target width, whatever
    the oracle: the two searches probe the same depths until one
    candidate fits the wider target only, and from there the wider search
    stays above that depth and the narrower one below it. *)
Lemma while_loop_end_mono (measureText : jsstring -> Q) (text : jsstring)
    (w1 w2 : Q) :
  (w1 <= w2)%Q ->
  forall (n : nat) (s e : Z) tt1 mw1 log1 tt2 mw2 log2,
    Z.to_nat (e + 1 - s) = n -> s <= e + 1 ->
    end_ (while_loop measureText text w1 s e tt1 mw1 log1)
    <= end_ (while_loop measureText text w2 s e tt2 mw2 log2).
Proof.
  intros Hw n. induction n as [n IH] using lt_wf_ind.
  intros s e tt1 mw1 log1 tt2 mw2 log2 Hn Hse.
  rewrite (while_loop_body measureText text w1),
          (while_loop_body measureText text w2).
  destruct (s <=? e) eqn:Hle; [apply Z.leb_le in Hle | simpl; lia].
  pose proof (mid_bounds s e Hle) as Hmid.
  set (mid := (s + e) / 2) in *.
  destruct (Qltb (measureText (candidate text mid)) w1) eqn:H1;
    destruct (Qltb (measureText (candidate text mid)) w2) eqn:H2.
  - eapply IH; [| reflexivity |]; lia.
  - apply Qltb_true in H1. apply Qltb_false in H2. exfalso.
    apply (Qlt_irrefl w2). apply Qle_lt_trans with (1 := H2).
    apply Qlt_le_trans with (1 := H1). exact Hw.
  - match goal with
    | |- end_ ?a <= end_ ?b =>
        assert (end_ a <= mid - 1) by (apply while_loop_end_range; lia);
        assert (mid + 1 - 1 <= end_ b) by (apply while_loop_end_range; lia)
    end. lia.
  - eapply IH; [| reflexivity |]; lia.
Qed.

(** What the loop has learnt at its two boundaries, whatever the oracle:
    the depth just below [start] was measured and fitted, the depth just
    above [end] was measured and did not. *)
Lemma search_boundary (measureText : jsstring -> Q) (text : jsstring)
    (targetWidth : Q) :
  (1 <= end_ (binary_search measureText text targetWidth) ->
   In (candidate text (end_ (binary_search measureText text targetWidth)))
      (measured (binary_search measureText text targetWidth))
   /\ fits measureText text targetWidth
        (end_ (binary_search measureText text targetWidth)))
  /\ (end_ (binary_search measureText text targetWidth) < half_of text ->
      In (candidate text (end_ (binary_search measureText text targetWidth) + 1))
         (measured (binary_search measureText text targetWidth))
      /\ ~ fits measureText text targetWidth
             (end_ (binary_search measureText text targetWidth) + 1)).
Proof.
  pose proof (search_bounds measureText text targetWidth) as [Hb Hst].
  destruct (while_loop_rule measureText text targetWidth
              (fun s e log =>
                 (1 < s -> In (candidate text (s - 1)) log
                           /\ fits measureText text targetWidth (s - 1))
                 /\ (e < half_of text ->
                     In (candidate text (e + 1)) log
                     /\ ~ fits measureText text targetWidth (e + 1))))
    with (s := 1) (e := half_of text) (tt := text) (mw := @None Q)
         (log := @nil jsstring) as [[Hlow Hhigh] _].
  - intros s e log Hse [Hl Hh] Hfit. split.
    + intros _. replace ((s + e) / 2 + 1 - 1) with ((s + e) / 2) by lia.
      split; [apply in_or_app; right; left; reflexivity | exact Hfit].
    + intros He. destruct (Hh He) as [Hin Hno].
      split; [apply in_or_app; left; exact Hin | exact Hno].
  - intros s e log Hse [Hl Hh] Hwide. split.
    + intros Hs. destruct (Hl Hs) as [Hin Hyes].
      split; [apply in_or_app; left; exact Hin | exact Hyes].
    + intros _. replace ((s + e) / 2 - 1 + 1) with ((s + e) / 2) by lia.
      split; [apply in_or_app; right; left; reflexivity | exact Hwide].
  - split; intros Habs; lia.
  - fold (binary_search measureText text targetWidth) in Hlow, Hhigh.
    rewrite Hst in Hlow.
    replace (end_ (binary_search measureText text targetWidth) + 1 - 1)
      with (end_ (binary_search measureText text targetWidth)) in Hlow by lia.
    split; [intros H; apply Hlow; lia | exact Hhigh].
Qed.

(** Candidates of different depths are different strings. *)
Lemma candidate_injective (text : jsstring) (j k : Z) :
  1 <= j <= half_of text -> 1 <= k <= half_of text ->
  candidate text j = candidate text k -> j = k.
Proof.
  intros Hj Hk Heq.
  pose proof (candidate_length text j Hj) as Lj.
  pose proof (candidate_length text k Hk) as Lk.
  rewrite Heq in Lj. lia.
Qed.

Lemma log2_above (m n : Z) : 1 <= m -> n <= 2 * m + 1 -> Z.log2 n <= 1 + Z.log2 m.
Proof.
  intros Hm Hn. pose proof (Z.log2_succ_double m ltac:(lia)) as Hd.
  pose proof (Z.log2_le_mono n (2 * m + 1) Hn). lia.
Qed.

Lemma search_probe_count_below (measureText : jsstring -> Q)
    (text : jsstring) (targetWidth : Q) :
  probes_due 1 (half_of text)
  <= Z.of_nat (List.length (measured (binary_search measureText text targetWidth))).
Proof.
  pose proof (half_bounds text) as [Hh _].
  destruct (while_loop_rule measureText text targetWidth
              (fun s e log =>
                 s <= e + 1
                 /\ probes_due 1 (half_of text)
                    <= Z.of_nat (List.length log) + probes_due s e))
    with (s := 1) (e := half_of text) (tt := text) (mw := @None Q)
         (log := @nil jsstring) as [[Hr HI] Hexit].
  - intros s e log Hse [_ HI] _. pose proof (mid_bounds s e Hse).
    pose proof (mid_double s e). split; [lia |].
    rewrite length_app. simpl List.length. unfold probes_due in *.
    pose proof (log2_above (e - ((s + e) / 2 + 1) + 2) (e - s + 2)). lia.
  - intros s e log Hse [_ HI] _. pose proof (mid_bounds s e Hse).
    pose proof (mid_double s e). split; [lia |].
    rewrite length_app. simpl List.length. unfold probes_due in *.
    pose proof (log2_above ((s + e) / 2 - 1 - s + 2) (e - s + 2)). lia.
  - split; [lia |]. simpl List.length. lia.
  - fold (binary_search measureText text targetWidth) in HI, Hexit, Hr.
    unfold probes_due in HI at 2.
    replace (end_ (binary_search measureText text targetWidth)
             - start (binary_search measureText text targetWidth) + 2)
      with 1 in HI by lia.
    change (Z.log2 1) with 0 in HI. lia.
Qed.

(** With [end = 0] line 121 builds the ellipsis and then the whole
    text. *)
Lemma fitted_depth_zero (text : jsstring) (l : Locals) :
  1 <= half_of text -> end_ l = 0 -> fitted text l = JS.ellipsis :: text.
Proof.
  intros Hhalf Hend. unfold fitted. rewrite Hend.
  destruct (half_of text <=? 0) eqn:Hfull; [apply Z.leb_le in Hfull; lia |].
  rewrite slice_minus_zero, slice_prefix by (unfold JS.length; lia).
  reflexivity.
Qed.

Lemma fitted_length (measureText : jsstring -> Q) (text : jsstring)
    (targetWidth : Q) :
  JS.length (truncate_to_fit measureText text targetWidth)
  = if half_of text <=? end_ (binary_search measureText text targetWidth)
    then JS.length text
    else if end_ (binary_search measureText text targetWidth) =? 0
         then JS.length text + 1
         else 2 * end_ (binary_search measureText text targetWidth) + 1.
Proof.
  pose proof (search_bounds measureText text targetWidth) as [Hb _].
  unfold truncate_to_fit.
  set (l := binary_search measureText text targetWidth) in *.
  destruct (half_of text <=? end_ l) eqn:Hfull.
  - unfold fitted. rewrite Hfull. reflexivity.
  - apply Z.leb_gt in Hfull.
    destruct (end_ l =? 0) eqn:Hz.
    + apply Z.eqb_eq in Hz. rewrite fitted_depth_zero by lia.
      unfold JS.length. rewrite length_cons. lia.
    + apply Z.eqb_neq in Hz. unfold fitted.
      destruct (half_of text <=? end_ l) eqn:Hfull';
        [apply Z.leb_le in Hfull'; lia |].
      apply (candidate_length text (end_ l)). lia.
Qed.

(** * Further facts about the component *)

Lemma probes_left_log2 (h : Z) :
  0 <= h -> probes_left 1 h <= Z.log2 (Z.max h 1) + 1.
Proof.
  intros Hh. unfold probes_left.
  destruct (1 <=? h) eqn:Hone.
  - apply Z.leb_le in Hone. rewrite Z.max_l by lia.
    replace (h - 1 + 1) with h by lia. lia.
  - pose proof (Z.log2_nonneg (Z.max h 1)). lia.
Qed.

(** What one run of the effect measures: candidates of its [text], at
    most [floor (log2 (max half 1)) + 1] of them. *)
Lemma effect_measures_few (getCtx : option CanvasRenderingContext2D)
    (text : jsstring) (ts : option TargetStyle) :
  Z.of_nat (List.length (measureCalls (useFixedSpan_effect getCtx text ts)))
  <= Z.log2 (Z.max (half_of text) 1) + 1
  /\ forall x, In x (measureCalls (useFixedSpan_effect getCtx text ts)) ->
       exists mid, 1 <= mid <= half_of text /\ x = candidate text mid.
Proof.
  pose proof (half_bounds text) as [Hh _].
  pose proof (Z.log2_nonneg (Z.max (half_of text) 1)) as Hlog.
  unfold useFixedSpan_effect.
  destruct ts as [ts |]; [| split; [simpl; lia | intros x []]].
  destruct getCtx as [ctx |]; [| split; [simpl; lia | intros x []]].
  destruct (Qeq_bool (width ts) 0); [split; [simpl; lia | intros x []] |].
  simpl. split.
  - pose proof (search_probe_count (ctx_measureText ctx (font ts)) text (width ts)).
    pose proof (probes_left_log2 (half_of text) Hh). lia.
  - apply search_measures_candidates.
Qed.

Lemma step_shape (env : Env) (c : Component) (ev : Event) :
  step env c ev = c
  \/ exists c', step env c ev = run_effect env c'
                /\ truncated c' = truncated c
                /\ measure_log c' = measure_log c
                /\ text_prop c' = text_prop (step env c ev)
                /\ targetStyle c' = targetStyle (step env c ev).
Proof.
  destruct ev as [w | t]; simpl.
  - destruct (resized env (targetStyle c) w) as [ts |]; [| left; reflexivity].
    right. eexists. split; [reflexivity |]. repeat split.
  - destruct (JS.eqb (text_prop c) t); [left; reflexivity |].
    right. eexists. split; [reflexivity |]. repeat split.
Qed.

(** * Further properties of the code *)

(** X1: whatever the oracle, when the hook shows a truncation of depth
    [end] with [1 <= end < half], the string shown is the candidate of
    that depth, it is one of the strings the loop measured, and it
    measured strictly below the target width. *)
Theorem shown_truncation_was_measured_and_fits (measureText : jsstring -> Q)
    (text : jsstring) (targetWidth : Q) :
  1 <= end_ (binary_search measureText text targetWidth) < half_of text ->
  truncate_to_fit measureText text targetWidth
  = candidate text (end_ (binary_search measureText text targetWidth))
  /\ In (truncate_to_fit measureText text targetWidth)
        (measured (binary_search measureText text targetWidth))
  /\ (measureText (truncate_to_fit measureText text targetWidth)
      < targetWidth)%Q.
Proof.
  intros [Hone Hhalf].
  destruct (search_boundary measureText text targetWidth) as [Hlow _].
  destruct (Hlow Hone) as [Hin Hfit].
  assert (Hres : truncate_to_fit measureText text targetWidth
                 = candidate text
                     (end_ (binary_search measureText text targetWidth))).
  { unfold truncate_to_fit, fitted.
    destruct (half_of text
              <=? end_ (binary_search measureText text targetWidth)) eqn:Hfull;
      [apply Z.leb_le in Hfull; lia | reflexivity]. }
  rewrite Hres. repeat split; assumption.
Qed.

Lemma shown_truncation_witness :
  truncate_to_fit px10 (JS.str "abcdef") 55
  = candidate (JS.str "abcdef") (end_ (binary_search px10 (JS.str "abcdef") 55))
  /\ In (truncate_to_fit px10 (JS.str "abcdef") 55)
        (measured (binary_search px10 (JS.str "abcdef") 55))
  /\ (px10 (truncate_to_fit px10 (JS.str "abcdef") 55) < 55)%Q.
Proof.
  apply (shown_truncation_was_measured_and_fits px10 (JS.str "abcdef") 55).
  vm_compute. split; [discriminate | reflexivity].
Defined.

(** X2: whatever the oracle, when the loop ends below [half], the
    candidate one unit deeper than [end] is one of the strings it
    measured, and that string did not measure below the target width. *)
Theorem next_depth_was_measured_too_wide (measureText : jsstring -> Q)
    (text : jsstring) (targetWidth : Q) :
  end_ (binary_search measureText text targetWidth) < half_of text ->
  In (candidate text (end_ (binary_search measureText text targetWidth) + 1))
     (measured (binary_search measureText text targetWidth))
  /\ (targetWidth
      <= measureText
           (candidate text
              (end_ (binary_search measureText text targetWidth) + 1)))%Q.
Proof.
  intros Hlt.
  destruct (search_boundary measureText text targetWidth) as [_ Hhigh].
  destruct (Hhigh Hlt) as [Hin Hno].
  split; [exact Hin | apply Qnot_lt_le; exact Hno].
Qed.

Lemma next_depth_witness :
  In (candidate (JS.str "abcd")
        (end_ (binary_search px_odd (JS.str "abcd") 20) + 1))
     (measured (binary_search px_odd (JS.str "abcd") 20))
  /\ (20 <= px_odd
              (candidate (JS.str "abcd")
                 (end_ (binary_search px_odd (JS.str "abcd") 20) + 1)))%Q.
Proof.
  apply (next_depth_was_measured_too_wide px_odd (JS.str "abcd") 20).
  vm_compute. reflexivity.
Defined.

(** X3: one evaluation never measures the same string twice. *)
Theorem no_string_is_measured_twice (measureText : jsstring -> Q)
    (text : jsstring) (targetWidth : Q) :
  NoDup (measured (binary_search measureText text targetWidth)).
Proof.
  destruct (while_loop_rule measureText text targetWidth
              (fun s e log =>
                 1 <= s /\ e <= half_of text /\ NoDup log
                 /\ forall x, In x log ->
                      exists mid, 1 <= mid <= half_of text
                                  /\ (mid < s \/ e < mid)
                                  /\ x = candidate text mid))
    with (s := 1) (e := half_of text) (tt := text) (mw := @None Q)
         (log := @nil jsstring) as [(_ & _ & Hnd & _) _].
  - intros s e log Hse (Hs & He & Hnd & Hlog) _.
    pose proof (mid_bounds s e Hse) as Hmid.
    repeat split; try lia.
    + apply NoDup_app; [exact Hnd | repeat constructor; intros [] |].
      intros a Ha [Hb | []]. subst a.
      destruct (Hlog _ Ha) as (m & Hm & Hout & Heq).
      apply candidate_injective in Heq; lia.
    + intros x Hx. apply in_app_or in Hx. destruct Hx as [Hx | [Hx | []]].
      * destruct (Hlog _ Hx) as (m & Hm & Hout & Heq).
        exists m. repeat split; try lia. exact Heq.
      * exists ((s + e) / 2). repeat split; try lia. congruence.
  - intros s e log Hse (Hs & He & Hnd & Hlog) _.
    pose proof (mid_bounds s e Hse) as Hmid.
    repeat split; try lia.
    + apply NoDup_app; [exact Hnd | repeat constructor; intros [] |].
      intros a Ha [Hb | []]. subst a.
      destruct (Hlog _ Ha) as (m & Hm & Hout & Heq).
      apply candidate_injective in Heq; lia.
    + intros x Hx. apply in_app_or in Hx. destruct Hx as [Hx | [Hx | []]].
      * destruct (Hlog _ Hx) as (m & Hm & Hout & Heq).
        exists m. repeat split; try lia. exact Heq.
      * exists ((s + e) / 2). repeat split; try lia. congruence.
  - repeat split; try lia; [constructor | intros x []].
  - exact Hnd.
Qed.

(** X4: one evaluation calls [measureText] at least
    [floor (log2 (half + 1))] times, whatever the oracle answers; for a
    text of two units or more that is at least once. *)
Theorem at_least_log_measurements (measureText : jsstring -> Q)
    (text : jsstring) (targetWidth : Q) :
  Z.log2 (half_of text + 1)
  <= Z.of_nat (List.length (measured (binary_search measureText text targetWidth)))
  /\ (1 <= half_of text ->
      1 <= Z.of_nat (List.length
                       (measured (binary_search measureText text targetWidth)))).
Proof.
  pose proof (search_probe_count_below measureText text targetWidth) as Hlow.
  unfold probes_due in Hlow.
  replace (half_of text - 1 + 2) with (half_of text + 1) in Hlow by lia.
  split; [exact Hlow |]. intros Hhalf.
  pose proof (Z.log2_le_mono 2 (half_of text + 1) ltac:(lia)) as Hmono.
  change (Z.log2 2) with 1 in Hmono. lia.
Qed.

Lemma at_least_log_measurements_witness :
  1 <= Z.of_nat (List.length (measured (binary_search px_odd (JS.str "abcd") 20))).
Proof.
  apply (at_least_log_measurements px_odd (JS.str "abcd") 20).
  vm_compute. discriminate.
Defined.

(** X5: the string handed to [setTruncated] is the text itself exactly
    when the loop ends with [end >= half]; the other branch of line 121
    never rebuilds the text. *)
Theorem unchanged_exactly_at_full_depth (measureText : jsstring -> Q)
    (text : jsstring) (targetWidth : Q) :
  truncate_to_fit measureText text targetWidth = text
  <-> half_of text <= end_ (binary_search measureText text targetWidth).
Proof.
  pose proof (search_bounds measureText text targetWidth) as [Hb _].
  pose proof (half_bounds text) as Hh.
  pose proof (fitted_length measureText text targetWidth) as Hlen.
  split.
  - intros Heq. rewrite Heq in Hlen.
    destruct (half_of text
              <=? end_ (binary_search measureText text targetWidth)) eqn:Hfull;
      [apply Z.leb_le; exact Hfull |].
    apply Z.leb_gt in Hfull.
    destruct (end_ (binary_search measureText text targetWidth) =? 0); lia.
  - intros Hfull. unfold truncate_to_fit, fitted.
    apply Z.leb_le in Hfull. rewrite Hfull. reflexivity.
Qed.

(** X6: the string handed to [setTruncated] has the length of the text
    when [end >= half], [2 * end + 1] units when [1 <= end < half], which
    is less than the text has, and one unit more than the text when
    [end = 0 < half]. *)
Theorem length_of_the_shown_string (measureText : jsstring -> Q)
    (text : jsstring) (targetWidth : Q) :
  JS.length (truncate_to_fit measureText text targetWidth)
  = (if half_of text <=? end_ (binary_search measureText text targetWidth)
     then JS.length text
     else if end_ (binary_search measureText text targetWidth) =? 0
          then JS.length text + 1
          else 2 * end_ (binary_search measureText text targetWidth) + 1)
  /\ (1 <= end_ (binary_search measureText text targetWidth) < half_of text ->
      JS.length (truncate_to_fit measureText text targetWidth)
      < JS.length text).
Proof.
  pose proof (fitted_length measureText text targetWidth) as Hlen.
  pose proof (half_bounds text) as Hh.
  split; [exact Hlen |]. intros [Hone Hhalf]. rewrite Hlen.
  destruct (half_of text
            <=? end_ (binary_search measureText text targetWidth)) eqn:Hfull;
    [apply Z.leb_le in Hfull; lia |].
  destruct (end_ (binary_search measureText text targetWidth) =? 0) eqn:Hz;
    [apply Z.eqb_eq in Hz; lia | lia].
Qed.

Lemma length_of_the_shown_string_witness :
  JS.length (truncate_to_fit px10 (JS.str "abcdef") 55)
  < JS.length (JS.str "abcdef").
Proof.
  apply (length_of_the_shown_string px10 (JS.str "abcdef") 55).
  vm_compute. split; [discriminate | reflexivity].
Defined.

(** X7: for one text and ANY oracle, monotone or not, the depth [end]
    the loop chooses does not decrease when the target width grows. *)
Theorem depth_grows_with_width_for_any_oracle (measureText : jsstring -> Q)
    (text : jsstring) (w1 w2 : Q) :
  (w1 <= w2)%Q ->
  end_ (binary_search measureText text w1)
  <= end_ (binary_search measureText text w2).
Proof.
  intros Hw. pose proof (half_bounds text) as [Hh _].
  unfold binary_search.
  apply (while_loop_end_mono measureText text w1 w2 Hw
           (Z.to_nat (half_of text + 1 - 1))); [reflexivity | lia].
Qed.

Lemma depth_grows_with_width_witness :
  end_ (binary_search px_odd (JS.str "abcd") 20)
  <= end_ (binary_search px_odd (JS.str "abcd") 60).
Proof.
  apply (depth_grows_with_width_for_any_oracle px_odd (JS.str "abcd") 20 60).
  vm_compute. discriminate.
Defined.



(** X9: once a component has a target style, it keeps one through every
    later resize and text change, and with the font it first read: the
    resize observer spreads the current style and replaces the width
    only, so a font the element computes later is never picked up. *)
Theorem font_is_read_once (c : Component) (ts : TargetStyle)
    (evs : list (Env * Event)) :
  targetStyle c = Some ts ->
  exists ts', targetStyle (run c evs) = Some ts' /\ font ts' = font ts.
Proof.
  revert c ts. induction evs as [| [env ev] rest IH]; intros c ts Hts; simpl.
  - exists ts. split; [exact Hts | reflexivity].
  - assert (Hstep : exists ts1, targetStyle (step env c ev) = Some ts1
                                /\ font ts1 = font ts).
    { destruct ev as [w | t]; simpl.
      - unfold resized. rewrite Hts. simpl. eexists. split; reflexivity.
      - destruct (JS.eqb (text_prop c) t); simpl; exists ts;
          (split; [exact Hts | reflexivity]). }
    destruct Hstep as (ts1 & Hts1 & Hfont).
    destruct (IH (step env c ev) ts1 Hts1) as (ts' & Hrun & Hfont').
    exists ts'. split; [exact Hrun | congruence].
Qed.

Lemma font_is_read_once_witness :
  exists ts',
    targetStyle
      (run (mount (page 35) (JS.str "abcdef"))
         [(mkEnv (Some (mkElement "20px serif" 80)) (Some ctx10), Resize 80);
          (page 80, SetText (JS.str "abc"))])
    = Some ts'
    /\ font ts' = font (mkTargetStyle 35 "14px sans-serif").
Proof.
  apply (font_is_read_once (mount (page 35) (JS.str "abcdef"))
           (mkTargetStyle 35 "14px sans-serif")).
  reflexivity.
Defined.

(** X10: after a resize, or a change of the text, whose effect has a
    context and a width other than 0, the display is the fit of the
    current text to the current target style, whatever was displayed
    before. *)
Theorem measurable_event_refits (env : Env) (c : Component) (ev : Event) :
  measurable env c ev = true ->
  (forall t, ev = SetText t -> t <> text_prop c) ->
  exists ctx ts,
    getContext env = Some ctx
    /\ targetStyle (step env c ev) = Some ts
    /\ truncated (step env c ev)
       = truncate_to_fit (ctx_measureText ctx (font ts))
           (text_prop (step env c ev)) (width ts).
Proof.
  intros Hm Hchange.
  assert (Heff : forall c', can_measure (getContext env) (targetStyle c') = true ->
            exists ctx ts,
              getContext env = Some ctx
              /\ targetStyle (run_effect env c') = Some ts
              /\ truncated (run_effect env c')
                 = truncate_to_fit (ctx_measureText ctx (font ts))
                     (text_prop (run_effect env c')) (width ts)).
  { intros c' Hcan. unfold can_measure in Hcan.
    unfold run_effect, useFixedSpan_effect. simpl.
    destruct (targetStyle c') as [ts |]; [| discriminate].
    destruct (getContext env) as [ctx |]; [| discriminate].
    apply negb_true_iff in Hcan. rewrite Hcan. simpl.
    exists ctx, ts. repeat split. }
  unfold measurable in Hm. destruct ev as [w | t]; cbn [step] in Hm |- *.
  - destruct (resized env (targetStyle c) w) as [ts |] eqn:Hres.
    + apply Heff. exact Hm.
    + unfold resized in Hres. unfold can_measure in Hm.
      destruct (targetStyle c); [discriminate Hres | discriminate Hm].
  - destruct (JS.eqb (text_prop c) t) eqn:Hsame.
    + apply eqb_true in Hsame. exfalso.
      apply (Hchange t eq_refl). symmetry. exact Hsame.
    + apply Heff. exact Hm.
Qed.

Lemma measurable_event_refits_witness :
  exists ctx ts,
    getContext (page 35) = Some ctx
    /\ targetStyle (step (page 35) (mount (page 35) (JS.str "abcdef")) (Resize 55))
       = Some ts
    /\ truncated (step (page 35) (mount (page 35) (JS.str "abcdef")) (Resize 55))
       = truncate_to_fit (ctx_measureText ctx (font ts))
           (text_prop (step (page 35) (mount (page 35) (JS.str "abcdef"))
                         (Resize 55)))
           (width ts).
Proof.
  apply (measurable_event_refits (page 35)
           (mount (page 35) (JS.str "abcdef")) (Resize 55)).
  - vm_compute. reflexivity.
  - intros t Ht. discriminate Ht.
Defined.

(** X11: one event makes the component measure at most
    [floor (log2 (max half 1)) + 1] strings more, [half] being that of the
    text after the event, and each of them is a candidate of that text;
    what had been measured before stays in the log. *)
Theorem event_measures_few (env : Env) (c : Component) (ev : Event) :
  exists more,
    measure_log (step env c ev) = measure_log c ++ more
    /\ Z.of_nat (List.length more)
       <= Z.log2 (Z.max (half_of (text_prop (step env c ev))) 1) + 1
    /\ forall x, In x more ->
         exists mid, 1 <= mid <= half_of (text_prop (step env c ev))
                     /\ x = candidate (text_prop (step env c ev)) mid.
Proof.
  destruct (step_shape env c ev) as [Hsame | (c' & Hstep & _ & Hlog & Htext & Hts)].
  - exists []. rewrite Hsame, app_nil_r. split; [reflexivity |].
    pose proof (Z.log2_nonneg (Z.max (half_of (text_prop c)) 1)).
    split; [simpl; lia | intros x []].
  - exists (measureCalls
              (useFixedSpan_effect (getContext env) (text_prop c') (targetStyle c'))).
    rewrite <- Htext. split.
    + rewrite Hstep. unfold run_effect. simpl. rewrite Hlog. reflexivity.
    + apply effect_measures_few.
Qed.

(** X12: a change of the text while the effect has nothing to measure
    with is not displayed: the prop is the new text and the display stays
    what it was. *)
Theorem unmeasurable_text_change_is_not_shown (env : Env) (c : Component)
    (t : jsstring) :
  measurable env c (SetText t) = false ->
  text_prop (step env c (SetText t)) = t
  /\ truncated (step env c (SetText t)) = truncated c.
Proof.
  intros Hno. split; [| apply (step_unmeasurable env c (SetText t) Hno)].
  simpl. destruct (JS.eqb (text_prop c) t) eqn:Hsame; [| reflexivity].
  apply eqb_true in Hsame. exact Hsame.
Qed.

Lemma unmeasurable_text_change_witness :
  text_prop (step (page 0) (mount (page 0) (JS.str "old")) (SetText (JS.str "new")))
  = JS.str "new"
  /\ truncated (step (page 0) (mount (page 0) (JS.str "old")) (SetText (JS.str "new")))
     = truncated (mount (page 0) (JS.str "old")).
Proof.
  apply (unmeasurable_text_change_is_not_shown (page 0)
           (mount (page 0) (JS.str "old")) (JS.str "new")).
  vm_compute. reflexivity.
Defined.

(** X13: the same resize event arriving a second time leaves the target
    style and the display as the first one left them, when the second
    arrival gets the 2d context of the first or none at all and, should
    the first have left no target style, still finds no element behind
    [ref]. *)
Theorem repeated_resize_keeps_display (env1 env2 : Env) (c : Component)
    (w : Q) :
  getContext env2 = None \/ getContext env2 = getContext env1 ->
  (targetStyle (step env1 c (Resize w)) = None -> ref_current env2 = None) ->
  targetStyle (step env2 (step env1 c (Resize w)) (Resize w))
  = targetStyle (step env1 c (Resize w))
  /\ truncated (step env2 (step env1 c (Resize w)) (Resize w))
     = truncated (step env1 c (Resize w)).
Proof.
  intros Hctx Href. cbn [step] in *.
  destruct (resized env1 (targetStyle c) w) as [ts |] eqn:Hres.
  - assert (Hts : resized env2 (Some ts) w = Some ts).
    { unfold resized in *. destruct (targetStyle c) as [cur |].
      - injection Hres as <-. reflexivity.
      - destruct (ref_current env1) as [el |]; [| discriminate].
        injection Hres as <-. reflexivity. }
    cbn [run_effect targetStyle]. rewrite Hts. split; [reflexivity |].
    unfold run_effect. cbn [truncated text_prop targetStyle].
    destruct Hctx as [Hnone | Hsame].
    + rewrite Hnone. reflexivity.
    + rewrite Hsame.
      destruct (setTruncated
                  (useFixedSpan_effect (getContext env1) (text_prop c) (Some ts)));
        reflexivity.
  - assert (Hstyle : targetStyle c = None).
    { unfold resized in Hres. destruct (targetStyle c); [discriminate |].
      reflexivity. }
    specialize (Href Hstyle). unfold resized. rewrite Hstyle, Href.
    split; [exact Hstyle | reflexivity].
Qed.

Lemma repeated_resize_witness :
  targetStyle
    (step (mkEnv (Some (mkElement "20px serif" 10)) (Some ctx10))
       (step (page 35) (mount (page 35) (JS.str "abcdef")) (Resize 55))
       (Resize 55))
  = targetStyle (step (page 35) (mount (page 35) (JS.str "abcdef")) (Resize 55))
  /\ truncated
       (step (mkEnv (Some (mkElement "20px serif" 10)) (Some ctx10))
          (step (page 35) (mount (page 35) (JS.str "abcdef")) (Resize 55))
          (Resize 55))
     = truncated (step (page 35) (mount (page 35) (JS.str "abcdef")) (Resize 55)).
Proof.
  apply (repeated_resize_keeps_display (page 35)
           (mkEnv (Some (mkElement "20px serif" 10)) (Some ctx10))
           (mount (page 35) (JS.str "abcdef")) 55).
  - right. reflexivity.
  - intros Habs. vm_compute in Habs. discriminate Habs.
Defined.

(** X16: copying out of a mounted component writes the full text of the
    last render when there is a clipboard API and its promise fulfils,
    and nothing at all otherwise: outside a secure context the handler
    throws after it has prevented the default copy, so not even the
    selection is copied; the selection itself is never written. *)
Theorem copy_writes_full_text_or_nothing (navigator : Navigator)
    (env : Env) (text : jsstring) (evs : list (Env * Event))
    (selection : jsstring) (cb : Clipboard) :
  copy navigator (run (mount env text) evs) selection cb
  = (if write_goes_through navigator (text_prop (run (mount env text) evs))
     then cb ++ [text_prop (run (mount env text) evs)]
     else cb)
  /\ (navigator_clipboard navigator = None ->
      handleCopy (closure_text (handleCopy_memo (run (mount env text) evs)))
        navigator (mkClipboardEvent false)
      = (mkClipboardEvent true, Threw_TypeError)
      /\ copy navigator (run (mount env text) evs) selection cb = cb).
Proof.
  split; [apply copy_characterised |]. intros Hnone. split.
  - unfold handleCopy. rewrite Hnone. reflexivity.
  - rewrite copy_characterised. unfold write_goes_through.
    rewrite Hnone. reflexivity.
Qed.

Lemma copy_writes_nothing_witness :
  handleCopy
    (closure_text (handleCopy_memo (run (mount (page 35) (JS.str "abcdef")) [])))
    insecure_navigator (mkClipboardEvent false)
  = (mkClipboardEvent true, Threw_TypeError)
  /\ copy insecure_navigator (run (mount (page 35) (JS.str "abcdef")) [])
       (JS.str "a") [JS.str "before"]
     = [JS.str "before"].
Proof.
  apply (copy_writes_full_text_or_nothing insecure_navigator (page 35)
           (JS.str "abcdef") [] (JS.str "a") [JS.str "before"]).
  reflexivity.
Defined.

(** * The build configuration *)

Lemma get_set_same (o : jsobject) (k : string) (v : jsvalue) :
  get (set o k v) k = v.
Proof.
  induction o as [| [k' v'] rest IH]; simpl.
  - rewrite String.eqb_refl. reflexivity.
  - destruct (String.eqb k k') eqn:Hk; simpl; rewrite Hk; [reflexivity | exact IH].
Qed.

Lemma get_set_other (o : jsobject) (k k' : string) (v : jsvalue) :
  k <> k' -> get (set o k' v) k = get o k.
Proof.
  intros Hne. induction o as [| [k0 v0] rest IH]; simpl.
  - apply String.eqb_neq in Hne. rewrite Hne. reflexivity.
  - destruct (String.eqb k' k0) eqn:Hk'; simpl.
    + apply String.eqb_eq in Hk'. subst k0.
      apply String.eqb_neq in Hne. rewrite Hne. reflexivity.
    + destruct (String.eqb k k0); [reflexivity | exact IH].
Qed.

(** X14: for the development-server phase the exported configuration
    reads [undefined] for [output] and [assetPrefix], carries [rewrites]
    as one more key after those of [nextConfig], and reads the same as
    [nextConfig] under every other key; for any other phase it is
    [nextConfig] itself. *)
Theorem dev_config_changes_three_settings (PHASE_DEVELOPMENT_SERVER : string)
    (NEXT_PUBLIC_BASE_PATH : jsvalue) (phase : string) :
  (phase <> PHASE_DEVELOPMENT_SERVER ->
   exports PHASE_DEVELOPMENT_SERVER NEXT_PUBLIC_BASE_PATH phase
   = nextConfig NEXT_PUBLIC_BASE_PATH)
  /\ (phase = PHASE_DEVELOPMENT_SERVER ->
      get (exports PHASE_DEVELOPMENT_SERVER NEXT_PUBLIC_BASE_PATH phase) "output"
      = Undefined
      /\ get (exports PHASE_DEVELOPMENT_SERVER NEXT_PUBLIC_BASE_PATH phase)
           "assetPrefix" = Undefined
      /\ get (exports PHASE_DEVELOPMENT_SERVER NEXT_PUBLIC_BASE_PATH phase)
           "rewrites" = Fn "rewrites"
      /\ keys (exports PHASE_DEVELOPMENT_SERVER NEXT_PUBLIC_BASE_PATH phase)
         = keys (nextConfig NEXT_PUBLIC_BASE_PATH) ++ ["rewrites"%string]
      /\ forall k : string,
           k <> "output"%string -> k <> "assetPrefix"%string ->
           k <> "rewrites"%string ->
           get (exports PHASE_DEVELOPMENT_SERVER NEXT_PUBLIC_BASE_PATH phase) k
           = get (nextConfig NEXT_PUBLIC_BASE_PATH) k).
Proof.
  unfold exports. split.
  - intros Hne. apply String.eqb_neq in Hne. rewrite Hne. reflexivity.
  - intros ->. rewrite String.eqb_refl. repeat split.
    intros k H1 H2 H3. unfold spread. cbn [fold_left fst snd].
    rewrite !get_set_other by assumption. reflexivity.
Qed.

Lemma dev_config_witness :
  exports "phase-development-server" Undefined "phase-production-build"
  = nextConfig Undefined
  /\ get (exports "phase-development-server" (Str "/dagster")
            "phase-development-server") "basePath" = Str "/dagster".
Proof.
  destruct (dev_config_changes_three_settings "phase-development-server"
              Undefined "phase-production-build") as [Hother _].
  destruct (dev_config_changes_three_settings "phase-development-server"
              (Str "/dagster") "phase-development-server") as [_ Hdev].
  split.
  - apply Hother. discriminate.
  - destruct (Hdev eq_refl) as (_ & _ & _ & _ & Hframe).
    rewrite Hframe by discriminate. reflexivity.
Defined.

(** X15: running the [webpack] hook for a list of compilations only
    adds: the externals and the rules that were there stay, in order, and
    behind them come one externals entry and one [.mp4] rule for each
    compilation, every rule with the prefix of the incoming
    configuration, which is [assetPrefix] when there is one, else
    [basePath], else empty; of [resolve] only [fallback] is written. *)
Theorem webpack_hook_only_adds (config : WebpackConfig) (servers : list bool) :
  externals (webpack_each config servers)
  = externals config
      ++ repeat (Obj [ ("utf-8-validate", Str "commonjs utf-8-validate");
                       ("bufferutil", Str "commonjs bufferutil") ]%string)
           (List.length servers)
  /\ module_rules (webpack_each config servers)
     = module_rules config
         ++ List.map
              (mp4_rule (asset_prefix (assetPrefix config) (basePath config)))
              servers
  /\ (forall k : string, k <> "fallback"%string ->
        get (resolve (webpack_each config servers)) k = get (resolve config) k)
  /\ (servers <> [] ->
      get (resolve (webpack_each config servers)) "fallback"
      = Obj [("fs", Bool false); ("module", Bool false)]%string).
Proof.
  revert config. induction servers as [| isServer rest IH]; intros config.
  - simpl. rewrite !app_nil_r. repeat split. intros Habs. congruence.
  - simpl webpack_each. destruct (IH (webpack config isServer))
      as (Hext & Hrules & Hres & Hfall).
    rewrite Hext, Hrules. simpl. rewrite <- !app_assoc. simpl.
    repeat split.
    + intros k Hk. rewrite Hres by exact Hk. apply get_set_other. exact Hk.
    + intros _. destruct rest as [| s rest'].
      * simpl. apply get_set_same.
      * apply Hfall. discriminate.
Qed.

Lemma webpack_hook_witness :
  get (resolve (webpack_each
                  (mkWebpackConfig [("alias", Obj [])]%string [] [] None (Some "/ui"%string))
                  [true; false]))
    "alias" = Obj []
  /\ get (resolve (webpack_each
                    (mkWebpackConfig [("alias", Obj [])]%string [] [] None (Some "/ui"%string))
                    [true; false]))
       "fallback" = Obj [("fs", Bool false); ("module", Bool false)]%string.
Proof.
  destruct (webpack_hook_only_adds
              (mkWebpackConfig [("alias", Obj [])]%string [] [] None (Some "/ui"%string))
              [true; false]) as (_ & _ & Hres & Hfall).
  split.
  - rewrite Hres by discriminate. reflexivity.
  - apply Hfall. discriminate.
Defined.
